(** * ZarrLoader: tile and raster reads over chunked N-dimensional arrays

    A shallow embedding of [src/zarrLoader.ts] (class [ZarrLoader]) and the
    properties of its indexing, selection and channel-splitting logic.

    Conventions of the embedding:
    - JavaScript integers (axis indices, chunk coordinates, lengths) are [Z];
      the one place where the code divides ([_decodeChannels]) uses [Q].
    - A JavaScript array is a [list]; reading out of range gives [None]
      ([undefined]); writing follows [Js.set].
    - [throw] and rejected promises are explicit: synchronous code returns a
      [result], an [async] method returns a [settled] value.
    - The mutable field [_channelSelections] is threaded explicitly: the one
      method that assigns it returns the next loader. *)

From Stdlib Require Import ZArith QArith List String Ascii Bool Lia.
Import ListNotations.
Open Scope Z_scope.

(* ================================================================== *)
(** ** JavaScript runtime: errors, arrays, strings                     *)
(* ================================================================== *)

Module Js.

(** An [Error] object as far as the loader looks at it. *)
Record Error := { name : string; message : string }.

(** What can be thrown.  The first six are the [throw Error(...)] sites of
    [zarrLoader.ts], kept apart by site rather than by message text;
    [TypeError] is what the runtime raises on a property read of
    [undefined] or a call of a non-function; [Thrown] carries an error
    raised by a collaborator (the store, [normalizeChannelSelection]). *)
Inductive exn :=
| DecreasingError          (* 'Arrays provided must be decreasing in shape' *)
| DimensionLabelsError     (* 'Dimension labels ... does not match image' *)
| NamedSelectionError      (* 'Cannot used named selection ...' *)
| MultipleSelectionsError  (* 'Cannot specify multiple channel selections' *)
| SelectionShapeError      (* 'Normalized selections ... do not correspond' *)
| ChunkSelectionError      (* 'Cannot set selection for dimension with chunk size' *)
| TypeError
| Thrown (e : Error).

(** Outcome of synchronous code. *)
Inductive result (A : Type) :=
| Ok (v : A)
| Err (e : exn).
Arguments Ok {A} v.
Arguments Err {A} e.

Definition bind {A B} (r : result A) (k : A -> result B) : result B :=
  match r with
  | Ok v => k v
  | Err e => Err e
  end.

(** Outcome of an awaited promise.  A promise built by [Promise.all]
    rejects with the reason of whichever member rejects first in time;
    the model keeps the reasons of all rejected members, in member order,
    and leaves open which of them is observed. *)
Inductive settled (A : Type) :=
| Fulfilled (v : A)
| Rejected (reasons : list exn).
Arguments Fulfilled {A} v.
Arguments Rejected {A} reasons.

(** [await] of a promise made from synchronous code. *)
Definition settle {A} (r : result A) : settled A :=
  match r with
  | Ok v => Fulfilled v
  | Err e => Rejected [e]
  end.

Fixpoint fulfilled {A} (rs : list (result A)) : list A :=
  match rs with
  | [] => []
  | Ok v :: rs' => v :: fulfilled rs'
  | Err _ :: rs' => fulfilled rs'
  end.

Fixpoint rejections {A} (rs : list (result A)) : list exn :=
  match rs with
  | [] => []
  | Ok _ :: rs' => rejections rs'
  | Err e :: rs' => e :: rejections rs'
  end.

(** [Promise.all]: fulfilled with all values, in member order, when no
    member rejects. *)
Definition Promise_all {A} (rs : list (result A)) : settled (list A) :=
  match rejections rs with
  | [] => Fulfilled (fulfilled rs)
  | es => Rejected es
  end.

Definition len {A} (l : list A) : Z := Z.of_nat (List.length l).

(** [l[i]]: [None] stands for [undefined]. *)
Definition get {A} (l : list A) (i : Z) : option A :=
  if i <? 0 then None else nth_error l (Z.to_nat i).

(** [v > 1] where [v] may be [undefined] ([undefined > 1] is [false]). *)
Definition gt1 (v : option Z) : bool :=
  match v with
  | Some c => 1 <? c
  | None => false
  end.

Fixpoint replace {A} (n : nat) (v : A) (l : list A) : list A :=
  match l, n with
  | [], _ => []
  | _ :: t, O => v :: t
  | h :: t, S n' => h :: replace n' v t
  end.

(** [l[i] = v] on an array whose empty slots are [hole].  A negative [i]
    names an ordinary property: the elements and the length stay as they
    are.  An [i] at or past the length extends the array. *)
Definition set {A} (hole : A) (i : Z) (v : A) (l : list A) : list A :=
  if i <? 0 then l
  else if i <? len l then replace (Z.to_nat i) v l
  else l ++ repeat hole (Z.to_nat (i - len l)) ++ [v].

(** [Array.prototype.some] with the index passed to the callback. *)
Fixpoint some_from {A} (p : A -> Z -> bool) (i : Z) (l : list A) : bool :=
  match l with
  | [] => false
  | a :: t => p a i || some_from p (i + 1) t
  end.

Definition some {A} (p : A -> Z -> bool) (l : list A) : bool :=
  some_from p 0 l.

(** [hay.includes(needle)] *)
Fixpoint includes (needle hay : string) : bool :=
  if String.prefix needle hay then true
  else match hay with
       | EmptyString => false
       | String _ rest => includes needle rest
       end.

(** [ToIntegerOrInfinity] on a finite number: truncation towards zero. *)
Definition ToIntegerOrInfinity (q : Q) : Z :=
  Z.quot (Qnum q) (Zpos (Qden q)).

End Js.

Import Js.

Notation "x <- e ;; k" := (Js.bind e (fun x => k))
  (at level 61, e at next level, right associativity).

(* ================================================================== *)
(** ** The zarr collaborator: typed arrays and array handles           *)
(* ================================================================== *)

Module Zarr.

(** A typed array is a window on a buffer.  Element values are opaque to
    the loader. *)
Record TypedArray := {
  buffer : list Z;
  byteOffset : Z;   (* first element of the window, counted in elements *)
  length : Z
}.

Definition elements (t : TypedArray) : list Z :=
  firstn (Z.to_nat (length t)) (skipn (Z.to_nat (byteOffset t)) (buffer t)).

Definition relative (len r : Z) : Z :=
  if r <? 0 then Z.max (len + r) 0 else Z.min r len.

(** [t.subarray(begin, end)]: a new window on the same buffer. *)
Definition subarray (t : TypedArray) (begin_ end_ : Q) : TypedArray :=
  let b := relative (length t) (ToIntegerOrInfinity begin_) in
  let e := relative (length t) (ToIntegerOrInfinity end_) in
  {| buffer := buffer t;
     byteOffset := byteOffset t + b;
     length := Z.max (e - b) 0 |}.

(** One entry of a coordinate vector handed to the store. *)
Inductive slot :=
| Idx (n : Z)     (* a number *)
| Whole           (* null: the whole axis *)
| Hole.           (* an empty slot of a sparse array *)

Record RawArray := { data : TypedArray; rawShape : list Z }.

(** A [ZarrArray] handle: metadata and the two reads the loader issues. *)
Record ZarrArray := {
  shape : list Z;
  chunks : list Z;
  dtype : string;
  getRawChunk : list slot -> result RawArray;
  getRaw : list slot -> result RawArray
}.

End Zarr.

Import Zarr.

(* ================================================================== *)
(** ** The helpers of [./utils] and the types of [./types]             *)
(* ================================================================== *)

(** [zarrLoader.ts] imports [guessRgb], [normalizeChannelSelection] and
    [ensureDecreasing] from [./utils] and the types [Dimension] and
    [DimensionSelection] from [./types].  The loader is defined over any
    implementation of them. *)
Class Utils := {
  Dimension : Type;
  DimensionSelection : Type;
  guessRgb : list Z -> bool;
  ensureDecreasing : list (list Z) -> bool;
  normalizeChannelSelection :
    list Dimension -> list (DimensionSelection + Z) -> result (list Z)
}.

(** Modelled from the spec: [range] of [./utils] is not among the sources.
    Section 4.5 of the specification has the splitting routine produce one
    view per channel [i] of [0 .. C-1], in that order; [range C] is that
    sequence of indices (for [0 <= C]). *)
Definition range (n : Z) : list Z :=
  map Z.of_nat (seq 0 (Z.to_nat n)).

(* ================================================================== *)
(** ** The loader                                                      *)
(* ================================================================== *)

Section Loader.

Context `{U : Utils}.

(** [ZarrArray | ZarrArray[]] *)
Inductive ZarrData :=
| Single (a : ZarrArray)
| Levels (l : list ZarrArray).

(** One entry of a selection passed to [setChannelSelections]:
    [DimensionSelection | number]. *)
Definition entry : Type := (DimensionSelection + Z)%type.

(** The argument of [setChannelSelections]: a list of selections or a
    single selection. *)
Inductive SelectionsArg :=
| Many (sels : list (list entry))
| One (sel : list entry).

Record ZarrLoader := {
  type : string;
  isRgb : bool;
  scale : Q;
  translate : list Q;
  dimensions : option (list Dimension);
  dtype : string;
  tileSize : option Z;
  numLevels : Z;
  _xIndex : Z;
  _yIndex : Z;
  _data : ZarrData;
  _channelSelections : list (list Z)
}.

(** [this._channelSelections = next] *)
Definition assignChannelSelections (ld : ZarrLoader) (next : list (list Z))
  : ZarrLoader :=
  {| type := type ld; isRgb := isRgb ld; scale := scale ld;
     translate := translate ld; dimensions := dimensions ld;
     dtype := dtype ld; tileSize := tileSize ld; numLevels := numLevels ld;
     _xIndex := _xIndex ld; _yIndex := _yIndex ld; _data := _data ld;
     _channelSelections := next |}.

(** Reading a property of a value that may be [undefined]. *)
Definition defined {A} (v : option A) : result A :=
  match v with
  | Some a => Ok a
  | None => Err TypeError
  end.

(** *** constructor (lines 30-79)

    An empty list of levels leaves [base] [undefined]; whichever of lines
    53-71 reads [base.shape] first then raises the [TypeError]. *)
Definition constructor (data : ZarrData) (dimensions : option (list Dimension))
    (isRgb : option bool) (scale : option Q) (translate : option (list Q))
  : result ZarrLoader :=
  bn <- match data with
        | Levels l =>
            if negb (ensureDecreasing (map shape l)) then Err DecreasingError
            else Ok (get l 0, len l)
        | Single a => Ok (Some a, 1)
        end ;;
  let '(base, numLevels) := bn in
  let scale := match scale with Some s => s | None => 1%Q end in
  let translate := match translate with Some t => t | None => [0%Q; 0%Q] end in
  base <- defined base ;;
  let isRgb := match isRgb with
               | Some true => true
               | _ => guessRgb (shape base)
               end in
  _ <- match dimensions with
       | Some ds =>
           if negb (len ds =? len (shape base)) then Err DimensionLabelsError
           else Ok tt
       | None => Ok tt
       end ;;
  let xy := if isRgb
            then (len (shape base) - 2, len (shape base) - 3)
            else (len (shape base) - 1, len (shape base) - 2) in
  Ok {| type := "zarr";
        isRgb := isRgb;
        scale := scale;
        translate := translate;
        dimensions := dimensions;
        dtype := Zarr.dtype base;
        tileSize := get (chunks base) (fst xy);
        numLevels := numLevels;
        _xIndex := fst xy;
        _yIndex := snd xy;
        _data := data;
        _channelSelections :=
          [repeat 0 (List.length (shape base))] |}.

(** *** getters (lines 81-91, 189-191) *)
Definition isPyramid (ld : ZarrLoader) : bool :=
  match _data ld with
  | Levels _ => true
  | Single _ => false
  end.

(** [None] is [undefined]: the first element of an empty list. *)
Definition base (ld : ZarrLoader) : option ZarrArray :=
  match _data ld with
  | Levels l => get l 0
  | Single a => Some a
  end.

Definition channelSelections (ld : ZarrLoader) : list (list Z) :=
  _channelSelections ld.

Definition _isUnchunkedMultiChannel (ld : ZarrLoader) : result bool :=
  if 0 <=? _yIndex ld - 1 then
    b <- defined (base ld) ;;
    Ok (gt1 (get (chunks b) (_yIndex ld - 1)))
  else Ok false.

(** *** _getSource (lines 193-197)

    The declared return type is [ZarrArray]; the value is whatever the
    expression yields. *)
Inductive Source :=
| SrcArray (a : ZarrArray)        (* an array handle *)
| SrcLevels (l : list ZarrArray)  (* the list of levels itself *)
| SrcUndefined.                   (* an index with no element *)

Definition _getSource (ld : ZarrLoader) (z : option Z) : Source :=
  match z, _data ld with
  | Some z, Levels l =>
      match get l z with
      | Some a => SrcArray a
      | None => SrcUndefined
      end
  | _, Single a => SrcArray a
  | None, Levels l => SrcLevels l
  end.

(** *** _decodeChannels (lines 199-208) *)

(** The body once [channelChunkSize] is known.  [offset] is a quotient of
    JavaScript numbers: [Q] holds it exactly, and agrees with the doubles
    of the runtime wherever the quotient and the multiples taken of it are
    representable, as they are when the chunk size divides the length (and
    for a quotient such as 10 / 4).  Elsewhere a double may round a cut
    point to the other side of an integer (8 / 6: the runtime cuts the
    last view at 7, exact arithmetic at 8): there the properties below
    state the number of views and the clamping of [subarray], which do not
    depend on the cut points, and nothing about the cut points
    themselves. *)
Definition decodeChannels (channelChunkSize : Z) (chunkData : TypedArray)
  : list TypedArray :=
  let offset := (inject_Z (length chunkData) / inject_Z channelChunkSize)%Q in
  map (fun i => subarray chunkData (offset * inject_Z i)%Q
                                   (offset * inject_Z i + offset)%Q)
      (range channelChunkSize).

(** [chunkData] is [data[0]], [undefined] when [data] is empty.  The loader
    calls the method only when the chunk size at the axis before Y is above
    one; a chunk size that is [undefined] would reach [range] as [NaN] and
    is kept as a throw. *)
Definition _decodeChannels (ld : ZarrLoader) (chunkData : option TypedArray)
  : result (list TypedArray) :=
  b <- defined (base ld) ;;
  let channelChunkSize := get (chunks b) (_yIndex ld - 1) in
  chunkData <- defined chunkData ;;
  channelChunkSize <- defined channelChunkSize ;;
  Ok (decodeChannels channelChunkSize chunkData).

(** *** setChannelSelections (lines 144-187) *)

(** Lines 148-150: a lone selection is wrapped.  The test is
    [Array.isArray(channelSelections[0])]: an empty list has no first
    element and is wrapped as well. *)
Definition wrapSelections (arg : SelectionsArg) : list (list entry) :=
  match arg with
  | Many (s :: rest) => s :: rest
  | Many [] => [[]]
  | One sel => [sel]
  end.

Definition isNumber (d : entry) : bool :=
  match d with
  | inr _ => true
  | inl _ => false
  end.

(** [sel as number[]] *)
Fixpoint asNumbers (sel : list entry) : list Z :=
  match sel with
  | [] => []
  | inr n :: t => n :: asNumbers t
  | inl _ :: t => asNumbers t
  end.

(** The callback of lines 152-164. *)
Definition normalizeSelection (ld : ZarrLoader) (sel : list entry)
  : result (list Z) :=
  match dimensions ld with
  | None =>
      if forallb isNumber sel then Ok (asNumbers sel)
      else Err NamedSelectionError
  | Some ds => normalizeChannelSelection ds sel
  end.

(** [l.map(f)] where [f] may throw: the first throw ends the map. *)
Fixpoint mapThrowing {A B} (f : A -> result B) (l : list A) : result (list B) :=
  match l with
  | [] => Ok []
  | a :: t =>
      b <- f a ;;
      bs <- mapThrowing f t ;;
      Ok (b :: bs)
  end.

(** Body of the loop of lines 174-184 for one selection. *)
Definition validateSelection (ld : ZarrLoader) (sel : list Z) : result unit :=
  b <- defined (base ld) ;;
  if negb (len sel =? len (shape b)) then Err SelectionShapeError
  else
    if some (fun key i => negb (key =? 0) && gt1 (get (chunks b) i)) sel
    then Err ChunkSelectionError
    else Ok tt.

Fixpoint validateSelections (ld : ZarrLoader) (sels : list (list Z))
  : result unit :=
  match sels with
  | [] => Ok tt
  | sel :: rest =>
      _ <- validateSelection ld sel ;;
      validateSelections ld rest
  end.

(** Everything before the assignment of line 186. *)
Definition nextChannelSelections (ld : ZarrLoader) (arg : SelectionsArg)
  : result (list (list Z)) :=
  next <- mapThrowing (normalizeSelection ld) (wrapSelections arg) ;;
  special <- (if isRgb ld then Ok true else _isUnchunkedMultiChannel ld) ;;
  if special && (1 <? len next) then Err MultipleSelectionsError
  else
    _ <- validateSelections ld next ;;
    Ok next.

(** The method: its outcome and the loader it leaves behind. *)
Definition setChannelSelections (ld : ZarrLoader) (arg : SelectionsArg)
  : result unit * ZarrLoader :=
  match nextChannelSelections ld arg with
  | Ok next => (Ok tt, assignChannelSelections ld next)
  | Err e => (Err e, ld)
  end.

(** *** getTile (lines 93-108) *)

Record TileIndex := { x : Z; y : Z; z : option Z }.

(** Lines 96-98: the coordinate vector of one selection. *)
Definition tileKey (ld : ZarrLoader) (x y : Z) (key : list Z) : list slot :=
  let chunkKey := map Idx key in
  let chunkKey := set Hole (_yIndex ld) (Idx y) chunkKey in
  set Hole (_xIndex ld) (Idx x) chunkKey.

(** [(await source.getRawChunk(chunkKey)).data] *)
Definition readChunk (source : Source) (chunkKey : list slot)
  : result TypedArray :=
  match source with
  | SrcArray a => r <- getRawChunk a chunkKey ;; Ok (data r)
  | _ => Err TypeError
  end.

(** Lines 94-101, up to the first suspension: the source and the reads
    issued, one per active selection, in selection order. *)
Definition tileRequests (ld : ZarrLoader) (t : TileIndex)
  : Source * list (list slot) :=
  (_getSource ld (z t), map (tileKey ld (x t) (y t)) (_channelSelections ld)).

(** Lines 103-107, after [Promise.all] is fulfilled. *)
Definition tileResume (ld : ZarrLoader) (data : list TypedArray)
  : result (list TypedArray) :=
  packed <- _isUnchunkedMultiChannel ld ;;
  if packed then _decodeChannels ld (get data 0)
  else Ok data.

Definition getTile (ld : ZarrLoader) (t : TileIndex)
  : settled (list TypedArray) :=
  let '(source, keys) := tileRequests ld t in
  match Promise_all (map (readChunk source) keys) with
  | Fulfilled data => settle (tileResume ld data)
  | Rejected es => Rejected es
  end.

(** *** getRaster (lines 110-132) *)

Record RasterData := {
  rasterData : list TypedArray;
  width : option Z;
  height : option Z
}.

(** Lines 113-120: the coordinate vector of one selection. *)
Definition rasterKey (ld : ZarrLoader) (key : list Z) : result (list slot) :=
  let chunkKey := map Idx key in
  let chunkKey := set Hole (_yIndex ld) Whole chunkKey in
  let chunkKey := set Hole (_xIndex ld) Whole chunkKey in
  if isRgb ld then Ok (set Hole (len chunkKey - 1) Whole chunkKey)
  else
    packed <- _isUnchunkedMultiChannel ld ;;
    if packed then Ok (set Hole (_yIndex ld - 1) Whole chunkKey)
    else Ok chunkKey.

(** [(await source.getRaw(chunkKey)).data] *)
Definition readPlane (source : Source) (chunkKey : list slot)
  : result TypedArray :=
  match source with
  | SrcArray a => r <- getRaw a chunkKey ;; Ok (data r)
  | _ => Err TypeError
  end.

(** Lines 111-123, up to the first suspension.  A selection whose
    coordinate vector cannot be built issues no read. *)
Definition rasterRequests (ld : ZarrLoader) (z : option Z)
  : Source * list (result (list slot)) :=
  (_getSource ld z, map (rasterKey ld) (_channelSelections ld)).

(** [const { shape } = source] *)
Definition sourceShape (source : Source) : result (list Z) :=
  match source with
  | SrcArray a => Ok (shape a)
  | _ => Err TypeError
  end.

(** Lines 125-131, after [Promise.all] is fulfilled. *)
Definition rasterResume (ld : ZarrLoader) (source : Source)
    (data : list TypedArray) : result RasterData :=
  shape <- sourceShape source ;;
  let width := get shape (_xIndex ld) in
  let height := get shape (_yIndex ld) in
  packed <- _isUnchunkedMultiChannel ld ;;
  if packed then
    views <- _decodeChannels ld (get data 0) ;;
    Ok {| rasterData := views; width := width; height := height |}
  else Ok {| rasterData := data; width := width; height := height |}.

Definition getRaster (ld : ZarrLoader) (z : option Z) : settled RasterData :=
  let '(source, keys) := rasterRequests ld z in
  match Promise_all (map (fun k => k <- k ;; readPlane source k) keys) with
  | Fulfilled data => settle (rasterResume ld source data)
  | Rejected es => Rejected es
  end.

(** *** onTileError (lines 134-142) *)
Definition onTileError (err : Error) : result unit :=
  if negb (includes "RangeError" (message err)) then Err (Thrown err)
  else Ok tt.

(** *** Calls in flight

    The runtime runs one piece of code at a time, from a call or a
    resumption up to the next [await] or [return].  [setChannelSelections]
    has no [await]: it is one piece.  [getTile] and [getRaster] are two
    pieces each: the first issues the reads and suspends at
    [await Promise.all(...)], the second runs when the reads have settled.
    A schedule is the order in which a caller's calls and the resumptions
    take place. *)

Inductive Event :=
| CallSetChannelSelections (arg : SelectionsArg)
| CallGetTile (t : TileIndex)
| CallGetRaster (z : option Z)
| Resume (n : nat).   (* the reads of call number [n] have settled *)

(** What a suspended call holds in its closure. *)
Inductive Issued :=
| IssuedTile (t : TileIndex) (source : Source) (keys : list (list slot))
| IssuedRaster (z : option Z) (source : Source)
               (keys : list (result (list slot))).

Inductive Outcome :=
| TileOutcome (r : settled (list TypedArray))
| RasterOutcome (r : settled RasterData).

Record Call := { issued : Issued; outcome : option Outcome }.

Record World := { loader : ZarrLoader; calls : list Call }.

(** Second piece of a read call, run against the loader as it is then. *)
Definition resumeCall (ld : ZarrLoader) (c : Call) : Call :=
  match outcome c with
  | Some _ => c
  | None =>
      {| issued := issued c;
         outcome :=
           Some
             match issued c with
             | IssuedTile _ source keys =>
                 TileOutcome
                   match Promise_all (map (readChunk source) keys) with
                   | Fulfilled data => settle (tileResume ld data)
                   | Rejected es => Rejected es
                   end
             | IssuedRaster _ source keys =>
                 RasterOutcome
                   match Promise_all
                           (map (fun k => k <- k ;; readPlane source k) keys)
                   with
                   | Fulfilled data => settle (rasterResume ld source data)
                   | Rejected es => Rejected es
                   end
             end |}
  end.

Fixpoint resumeNth (ld : ZarrLoader) (n : nat) (cs : list Call) : list Call :=
  match cs, n with
  | [], _ => []
  | c :: rest, O => resumeCall ld c :: rest
  | c :: rest, S n' => c :: resumeNth ld n' rest
  end.

Definition step (w : World) (e : Event) : World :=
  match e with
  | CallSetChannelSelections arg =>
      {| loader := snd (setChannelSelections (loader w) arg);
         calls := calls w |}
  | CallGetTile t =>
      let '(source, keys) := tileRequests (loader w) t in
      {| loader := loader w;
         calls := calls w ++ [{| issued := IssuedTile t source keys;
                                 outcome := None |}] |}
  | CallGetRaster z =>
      let '(source, keys) := rasterRequests (loader w) z in
      {| loader := loader w;
         calls := calls w ++ [{| issued := IssuedRaster z source keys;
                                 outcome := None |}] |}
  | Resume n =>
      {| loader := loader w; calls := resumeNth (loader w) n (calls w) |}
  end.

Definition run (w : World) (schedule : list Event) : World :=
  fold_left step schedule w.

Definition isRead (e : Event) : bool :=
  match e with
  | CallSetChannelSelections _ => false
  | _ => true
  end.

Definition startsRead (e : Event) : bool :=
  match e with
  | CallGetTile _ | CallGetRaster _ => true
  | _ => false
  end.

(** A read call that issued the reads of [getTile ld t] (of
    [getRaster ld z]) and, once resumed, has its outcome. *)
Definition callOn (ld : ZarrLoader) (c : Call) : Prop :=
  match issued c with
  | IssuedTile t source keys =>
      (source, keys) = tileRequests ld t /\
      (forall r, outcome c = Some r -> r = TileOutcome (getTile ld t))
  | IssuedRaster z source keys =>
      (source, keys) = rasterRequests ld z /\
      (forall r, outcome c = Some r -> r = RasterOutcome (getRaster ld z))
  end.

End Loader.

(* ================================================================== *)
(** ** Vocabulary of the properties                                    *)
(* ================================================================== *)

(** The errors the loader raises itself, by [throw Error(...)], on a bad
    configuration. *)
Definition isConfigurationError (e : exn) : bool :=
  match e with
  | DecreasingError | DimensionLabelsError | NamedSelectionError
  | MultipleSelectionsError | SelectionShapeError | ChunkSelectionError => true
  | TypeError | Thrown _ => false
  end.

(** The test of line 138, as a property of the error: its message contains
    the text [RangeError].  The comment of lines 135-137 has this text
    stand in for an error class the store does not have yet. *)
Definition mentionsRangeError (e : Error) : Prop :=
  exists before after : string,
    message e = (before ++ "RangeError" ++ after)%string.

(** Modelled from the spec: the store is not among the sources.  Sections
    4.6 and 7 of the specification have it raise its out-of-bounds
    condition on a read whose coordinates exceed the array's extent.  For
    a chunk read, the coordinate [n] at an axis of extent [s] cut in chunks
    of [c] exceeds it when it is negative or names a chunk that would
    start at or past [s]. *)
Definition exceedsExtent (shape chunks : list Z) (chunkKey : list slot) : bool :=
  some (fun k i =>
          match k, get shape i, get chunks i with
          | Idx n, Some s, Some c => (n <? 0) || (s <=? n * c)
          | _, _, _ => false
          end)
       chunkKey.

(** [e] is what store [a] raises for a chunk read that exceeds its
    extent: the out-of-bounds condition of that store. *)
Definition isOutOfBoundsRead (a : ZarrArray) (e : Error) : Prop :=
  exists chunkKey,
    exceedsExtent (shape a) (chunks a) chunkKey = true /\
    getRawChunk a chunkKey = Err (Thrown e).

(** View [i] of a buffer of [C * k] elements. *)
Definition view (t : TypedArray) (k i : Z) : TypedArray :=
  {| buffer := buffer t; byteOffset := byteOffset t + i * k; length := k |}.

Section Reachable.

Context `{U : Utils}.

(** The loaders a caller can hold: built by the constructor, then any
    number of [setChannelSelections] calls, successful or not. *)
Inductive reachable : ZarrLoader -> Prop :=
| reachable_new data dims rgb sc tr ld :
    constructor data dims rgb sc tr = Ok ld -> reachable ld
| reachable_set ld arg :
    reachable ld -> reachable (snd (setChannelSelections ld arg)).

(** What the methods read besides the selections. *)
Definition layout (ld : ZarrLoader) : bool * Z * Z * ZarrData :=
  (isRgb ld, _xIndex ld, _yIndex ld, _data ld).

(** A selection fits the base array: one entry per axis, and [0] wherever
    the chunk is more than one element long. *)
Definition fits (b : ZarrArray) (sel : list Z) : Prop :=
  len sel = len (shape b) /\
  forall i key, get sel i = Some key -> gt1 (get (chunks b) i) = true -> key = 0.


Definition noSet (schedule : list Event) : Prop :=
  forallb isRead schedule = true.

(** Lines 38-48 go through on [data] and leave [b] as [base]: a lone
    array, or a list of levels that [ensureDecreasing] accepts and that
    has a first element. *)
Definition accepted (data : ZarrData) (b : ZarrArray) : Prop :=
  match data with
  | Single a => a = b
  | Levels l => ensureDecreasing (map shape l) = true /\ get l 0 = Some b
  end.

(** The test of line 54 passes: no labels, or one label per axis. *)
Definition labelsFit (dims : option (list Dimension)) (b : ZarrArray) : Prop :=
  match dims with
  | Some ds => len ds = len (shape b)
  | None => True
  end.

(** The condition on the left of [&&] at line 166. *)
Definition singleSelectionOnly (ld : ZarrLoader) : Prop :=
  isRgb ld = true \/ _isUnchunkedMultiChannel ld = Ok true.

(** A list of numeric selections as an argument of
    [setChannelSelections]. *)
Definition numeric (sels : list (list Z)) : SelectionsArg :=
  Many (map (map inr) sels).

(** What holds of every loader a caller can hold, with [b] its base
    array. *)
Definition wellFormed (ld : ZarrLoader) (b : ZarrArray) : Prop :=
  base ld = Some b /\
  Forall (fits b) (channelSelections ld) /\
  channelSelections ld <> [] /\
  (singleSelectionOnly ld -> exists sel, channelSelections ld = [sel]) /\
  type ld = "zarr"%string /\
  _xIndex ld = len (shape b) - (if isRgb ld then 2 else 1) /\
  _yIndex ld = _xIndex ld - 1 /\
  tileSize ld = get (chunks b) (_xIndex ld) /\
  numLevels ld = match _data ld with
                 | Single _ => 1
                 | Levels l => len l
                 end /\
  labelsFit (dimensions ld) b.

End Reachable.

(** Window [v] lies within window [t] of the same buffer. *)
Definition inside (t v : TypedArray) : Prop :=
  buffer v = buffer t /\
  byteOffset t <= byteOffset v /\
  0 <= length v /\
  byteOffset v + length v <= byteOffset t + length t.

(* ================================================================== *)
(** ** Concrete arrays and loaders used in the examples                *)
(* ================================================================== *)

Module Sample.

(** One implementation of the helpers: a shape of rank above two ending
    in 3 or 4 is taken as interleaved; a named entry is a pair of a label
    and an index and resolves to its index. *)
Definition allLess (s1 s2 : list Z) : bool :=
  (List.length s1 =? List.length s2)%nat &&
  forallb (fun p => snd p <? fst p) (combine s1 s2).

Fixpoint decreasing (shapes : list (list Z)) : bool :=
  match shapes with
  | s1 :: ((s2 :: _) as rest) => allLess s1 s2 && decreasing rest
  | _ => true
  end.

Definition utils : Utils := {|
  Dimension := string;
  DimensionSelection := string * Z;
  guessRgb := fun shape =>
    (2 <? len shape) &&
    match get shape (len shape - 1) with
    | Some 3 | Some 4 => true
    | _ => false
    end;
  ensureDecreasing := decreasing;
  normalizeChannelSelection := fun _ sel =>
    Ok (map (fun d => match d with inl (_, i) => i | inr n => n end) sel)
|}.

#[local] Existing Instance utils.

Definition iota (n : nat) : list Z := map Z.of_nat (seq 0 n).

Definition whole (n : nat) : TypedArray :=
  {| buffer := iota n; byteOffset := 0; length := Z.of_nat n |}.

(** A store that answers every read with the same [n] elements. *)
Definition array (shape chunks : list Z) (n : nat) : ZarrArray :=
  {| shape := shape; chunks := chunks; Zarr.dtype := "<u1";
     getRawChunk := fun _ => Ok {| data := whole n; rawShape := chunks |};
     getRaw := fun _ => Ok {| data := whole n; rawShape := shape |} |}.

(** A store whose chunk reads answer with the first coordinate. *)
Definition channelArray (shape chunks : list Z) : ZarrArray :=
  {| shape := shape; chunks := chunks; Zarr.dtype := "<u1";
     getRawChunk := fun key =>
       match key with
       | Idx c :: _ =>
           Ok {| data := {| buffer := [c]; byteOffset := 0; length := 1 |};
                 rawShape := chunks |}
       | _ => Err (Thrown {| name := "Error"; message := "bad key" |})
       end;
     getRaw := fun _ => Ok {| data := whole 4; rawShape := shape |} |}.

(** The loader the constructor builds from [data]; a loader without
    selections stands in where the constructor throws. *)
Definition loaderOf (data : ZarrData) (rgb : option bool) : ZarrLoader :=
  match constructor data None rgb None None with
  | Ok ld => ld
  | Err _ =>
      {| type := ""; isRgb := false; scale := 1%Q; translate := [];
         dimensions := None; dtype := ""; tileSize := None; numLevels := 0;
         _xIndex := 0; _yIndex := 0; _data := data;
         _channelSelections := [] |}
  end.

(** Three channels in one chunk. *)
Definition packedArray : ZarrArray := array [3; 8; 8] [3; 2; 2] 12.
Definition packedLoader : ZarrLoader := loaderOf (Single packedArray) None.

(** Interleaved, with two time points in one chunk. *)
Definition rgbPackedArray : ZarrArray := array [2; 4; 4; 3] [2; 4; 4; 3] 96.
Definition rgbPackedLoader : ZarrLoader :=
  loaderOf (Single rgbPackedArray) (Some true).

(** Five channels, one per chunk. *)
Definition plainArray : ZarrArray := channelArray [5; 8; 8] [1; 2; 2].
Definition plainLoader : ZarrLoader := loaderOf (Single plainArray) None.

(** Two levels. *)
Definition level0 : ZarrArray := array [8; 8] [2; 2] 4.
Definition level1 : ZarrArray := array [4; 4] [2; 2] 4.
Definition pyramidLoader : ZarrLoader :=
  loaderOf (Levels [level0; level1]) None.

(** Four channels per chunk, five channels in all: a plane read returns
    [5 * 1 * 2] elements. *)
Definition raggedArray : ZarrArray :=
  {| shape := [5; 1; 2]; chunks := [4; 1; 2]; Zarr.dtype := "<u1";
     getRawChunk := fun _ => Ok {| data := whole 8; rawShape := [4; 1; 2] |};
     getRaw := fun _ => Ok {| data := whole 10; rawShape := [5; 1; 2] |} |}.
Definition raggedLoader : ZarrLoader := loaderOf (Single raggedArray) None.

Definition tile00 : TileIndex := {| x := 0; y := 0; z := None |}.

Definition threeSelections : @SelectionsArg utils :=
  Many [[inr 2; inr 0; inr 0]; [inr 0; inr 0; inr 0]; [inr 4; inr 0; inr 0]].

(** [plainLoader] after [setChannelSelections threeSelections]. *)
Definition threeLoader : ZarrLoader :=
  snd (setChannelSelections plainLoader threeSelections).

(** A store that answers with elements numbered from 0: a chunk read with
    one whole chunk, a plane read with as many elements as the opened axes
    span. *)
Fixpoint planeSize (shape : list Z) (key : list slot) : Z :=
  match shape, key with
  | s :: shape', Whole :: key' => s * planeSize shape' key'
  | _ :: shape', _ :: key' => planeSize shape' key'
  | _, _ => 1
  end.

Definition honestArray (shape chunks : list Z) : ZarrArray :=
  {| shape := shape; chunks := chunks; Zarr.dtype := "<u1";
     getRawChunk := fun _ =>
       Ok {| data := whole (Z.to_nat (fold_right Z.mul 1 chunks));
             rawShape := chunks |};
     getRaw := fun key =>
       Ok {| data := whole (Z.to_nat (planeSize shape key));
             rawShape := shape |} |}.

(** Two time points of an interleaved image in one chunk. *)
Definition twoTimesRgb : ZarrArray := honestArray [2; 4; 4; 3] [2; 4; 4; 3].
Definition twoTimesRgbLoader : ZarrLoader :=
  loaderOf (Single twoTimesRgb) (Some true).

(** A store that checks bounds and names its error after the check, and
    whose chunk 4 cannot be decoded. *)
Definition boundsError : Error :=
  {| name := "BoundsCheckError"; message := "index out of bounds" |}.
Definition corrupt : Error :=
  {| name := "Error";
     message := "cannot decode chunk: RangeError: offset is out of bounds" |}.
Definition boundedArray : ZarrArray :=
  {| shape := [5; 8; 8]; chunks := [1; 2; 2]; Zarr.dtype := "<u1";
     getRawChunk := fun key =>
       if exceedsExtent [5; 8; 8] [1; 2; 2] key then Err (Thrown boundsError)
       else match key with
            | Idx 4 :: _ => Err (Thrown corrupt)
            | _ => Ok {| data := whole 4; rawShape := [1; 2; 2] |}
            end;
     getRaw := fun _ => Ok {| data := whole 4; rawShape := [5; 8; 8] |} |}.

(** Two levels in the wrong order. *)
Definition growingLevels : ZarrData := Levels [level1; level0].

(** A selection with a named entry. *)
Definition namedSelection : @SelectionsArg utils :=
  One [inl ("channel"%string, 2); inr 0; inr 0].

(** A store that refuses every chunk read as out of bounds. *)
Definition outOfBounds : Error :=
  {| name := "Error"; message := "RangeError: index out of bounds" |}.
Definition refusingArray : ZarrArray :=
  {| shape := [5; 8; 8]; chunks := [1; 2; 2]; Zarr.dtype := "<u1";
     getRawChunk := fun _ => Err (Thrown outOfBounds);
     getRaw := fun _ => Err (Thrown outOfBounds) |}.
Definition refusingLoader : ZarrLoader := loaderOf (Single refusingArray) None.

(** A selection of the wrong length for [plainArray]. *)
Definition shortSelection : @SelectionsArg utils := One [inr 0; inr 0].

(** An interleaved shape built with [isRgb] given as [false]. *)
Definition rgbGuessedLoader : ZarrLoader :=
  loaderOf (Single rgbPackedArray) (Some false).

(** What [plainArray] answers for channel [c]. *)
Definition channel (c : Z) : TypedArray :=
  {| buffer := [c]; byteOffset := 0; length := 1 |}.

(** Window [[first, first + n)] on the buffer of [whole total]. *)
Definition window (total : nat) (first n : Z) : TypedArray :=
  {| buffer := iota total; byteOffset := first; length := n |}.

End Sample.

(* ================================================================== *)
(** ** Array reads and writes                                          *)
(* ================================================================== *)

Section ArrayFacts.

Context {A : Type}.

Lemma len_nonneg (l : list A) : 0 <= len l.
Proof. unfold len. lia. Qed.

Lemma replace_length (n : nat) (v : A) (l : list A) :
  List.length (replace n v l) = List.length l.
Proof.
  revert n. induction l as [|h t IH]; intros [|n]; simpl; auto.
Qed.

Lemma nth_error_replace (n m : nat) (v : A) (l : list A) :
  (n < List.length l)%nat ->
  nth_error (replace n v l) m =
  if (m =? n)%nat then Some v else nth_error l m.
Proof.
  revert n m. induction l as [|h t IH]; intros n m Hn; simpl in Hn.
  - lia.
  - destruct n as [|n], m as [|m]; simpl; auto.
    apply IH. lia.
Qed.

Lemma get_in_range (l : list A) (i : Z) :
  0 <= i < len l -> exists a, get l i = Some a.
Proof.
  intros Hi. unfold get, len in *.
  destruct (Z.ltb_spec i 0) as [?|_]; [lia|].
  destruct (nth_error l (Z.to_nat i)) as [a|] eqn:E; [eauto|].
  apply nth_error_None in E. lia.
Qed.

Lemma get_some_range (l : list A) (i : Z) (a : A) :
  get l i = Some a -> 0 <= i < len l.
Proof.
  unfold get, len. destruct (Z.ltb_spec i 0) as [?|Hi]; [discriminate|].
  intros E. assert (Z.to_nat i < List.length l)%nat.
  { apply nth_error_Some. congruence. }
  lia.
Qed.

Lemma len_set_in (hole : A) (i : Z) (v : A) (l : list A) :
  i < len l -> len (set hole i v l) = len l.
Proof.
  intros Hi. unfold set.
  destruct (Z.ltb_spec i 0) as [?|?]; [reflexivity|].
  destruct (Z.ltb_spec i (len l)) as [?|?]; [|lia].
  unfold len. now rewrite replace_length.
Qed.

Lemma get_set_in (hole : A) (i j : Z) (v : A) (l : list A) :
  0 <= i < len l ->
  get (set hole i v l) j = if j =? i then Some v else get l j.
Proof.
  intros Hi. unfold set.
  destruct (Z.ltb_spec i 0) as [?|_]; [lia|].
  destruct (Z.ltb_spec i (len l)) as [_|?]; [|lia].
  unfold get. destruct (Z.ltb_spec j 0) as [Hj|Hj].
  - destruct (Z.eqb_spec j i); [lia|reflexivity].
  - rewrite nth_error_replace by (unfold len in Hi; lia).
    destruct (Z.eqb_spec j i) as [->|Hne].
    + now rewrite Nat.eqb_refl.
    + destruct (Nat.eqb_spec (Z.to_nat j) (Z.to_nat i)) as [E|_]; [lia|reflexivity].
Qed.

Lemma set_negative (hole : A) (i : Z) (v : A) (l : list A) :
  i < 0 -> set hole i v l = l.
Proof.
  intros Hi. unfold set. destruct (Z.ltb_spec i 0); [reflexivity|lia].
Qed.

Lemma get_map {B : Type} (f : A -> B) (l : list A) (i : Z) :
  get (map f l) i = option_map f (get l i).
Proof.
  unfold get. destruct (i <? 0); [reflexivity|]. apply nth_error_map.
Qed.

Lemma len_map {B : Type} (f : A -> B) (l : list A) : len (map f l) = len l.
Proof. unfold len. now rewrite length_map. Qed.

(** [Promise.all] is fulfilled exactly when every member is, and then
    with the members' values in member order. *)
Lemma Promise_all_fulfilled (rs : list (result A)) (vs : list A) :
  Promise_all rs = Fulfilled vs <-> Forall2 (fun r v => r = Ok v) rs vs.
Proof.
  unfold Promise_all. revert vs.
  induction rs as [|[v|e] rs IH]; intros vs; simpl.
  - split.
    + intros E. injection E as <-. constructor.
    + intros H. inversion H. reflexivity.
  - specialize (IH (tl vs)). split.
    + intros E. destruct (rejections rs) eqn:R; [|discriminate].
      injection E as <-. constructor; [reflexivity|].
      apply IH. reflexivity.
    + intros H. inversion H as [|r v' rs' vs' Hv Hrest]; subst.
      injection Hv as <-. simpl in IH. apply IH in Hrest.
      destruct (rejections rs); [|discriminate].
      now injection Hrest as ->.
  - split; [discriminate|]. intros H. inversion H; discriminate.
Qed.

End ArrayFacts.

(* ================================================================== *)
(** ** Tile reads                                                      *)
(* ================================================================== *)

Section TileReads.

Context `{U : Utils}.

Lemma Forall2_map_left {A B C} (P : B -> C -> Prop) (f : A -> B)
    (l : list A) (l' : list C) :
  Forall2 P (map f l) l' <-> Forall2 (fun a c => P (f a) c) l l'.
Proof.
  revert l'. induction l as [|a l IH]; intros l'; simpl.
  - split; intros H; inversion H; constructor.
  - split; intros H; inversion H; subst; constructor; auto; now apply IH.
Qed.

Lemma readChunk_ok (a : ZarrArray) (k : list slot) (buf : TypedArray) :
  readChunk (SrcArray a) k = Ok buf <->
  exists r, getRawChunk a k = Ok r /\ data r = buf.
Proof.
  simpl. destruct (getRawChunk a k) as [r|e]; simpl; split.
  - intros E. injection E as <-. eauto.
  - intros (r' & E & <-). now injection E as ->.
  - discriminate.
  - intros (r & E & _). discriminate.
Qed.

Lemma readPlane_ok (a : ZarrArray) (k : list slot) (buf : TypedArray) :
  readPlane (SrcArray a) k = Ok buf <->
  exists r, getRaw a k = Ok r /\ data r = buf.
Proof.
  simpl. destruct (getRaw a k) as [r|e]; simpl; split.
  - intros E. injection E as <-. eauto.
  - intros (r' & E & <-). now injection E as ->.
  - discriminate.
  - intros (r & E & _). discriminate.
Qed.

(** Entries of the coordinate vector of a tile read. *)
Lemma tileKey_entries (ld : ZarrLoader) (x y : Z) (sel : list Z) (i : Z) :
  0 <= _yIndex ld < len sel ->
  0 <= _xIndex ld < len sel ->
  get (tileKey ld x y sel) i =
  if i =? _xIndex ld then Some (Idx x)
  else if i =? _yIndex ld then Some (Idx y)
  else option_map Idx (get sel i).
Proof.
  intros Hy Hx. unfold tileKey.
  rewrite get_set_in by (rewrite len_set_in; rewrite len_map; lia).
  destruct (i =? _xIndex ld); [reflexivity|].
  rewrite get_set_in by (rewrite len_map; lia).
  destruct (i =? _yIndex ld); [reflexivity|].
  apply get_map.
Qed.

Lemma tileKey_len (ld : ZarrLoader) (x y : Z) (sel : list Z) :
  _yIndex ld < len sel -> _xIndex ld < len sel ->
  len (tileKey ld x y sel) = len sel.
Proof.
  intros Hy Hx. unfold tileKey.
  assert (Hy1 : forall v, len (set Hole (_yIndex ld) v (map Idx sel)) = len sel).
  { intros v. rewrite len_set_in; rewrite len_map; lia. }
  rewrite len_set_in; rewrite Hy1; lia.
Qed.

(** A tile request on a loader that is not packed-multichannel is
    fulfilled exactly with the store's answers, in selection order. *)
Lemma getTile_unpacked (ld : ZarrLoader) (t : TileIndex) (a : ZarrArray)
    (bufs : list TypedArray) :
  _isUnchunkedMultiChannel ld = Ok false ->
  _getSource ld (z t) = SrcArray a ->
  getTile ld t = Fulfilled bufs <->
  Forall2 (fun sel buf =>
             exists r, getRawChunk a (tileKey ld (x t) (y t) sel) = Ok r
                       /\ data r = buf)
          (channelSelections ld) bufs.
Proof.
  intros Hpacked Hsource.
  unfold getTile, tileRequests, channelSelections.
  rewrite Hsource.
  rewrite <- (Forall2_map_left
                (fun k buf => exists r, getRawChunk a k = Ok r /\ data r = buf)).
  set (keys := map (tileKey ld (x t) (y t)) (_channelSelections ld)).
  assert (Hread : Forall2 (fun r v => r = Ok v)
                          (map (readChunk (SrcArray a)) keys) bufs <->
                  Forall2 (fun k buf => exists r, getRawChunk a k = Ok r
                                                  /\ data r = buf) keys bufs).
  { rewrite Forall2_map_left. split; intros H; induction H; constructor;
      auto; now apply readChunk_ok. }
  rewrite <- Hread, <- Promise_all_fulfilled.
  destruct (Promise_all (map (readChunk (SrcArray a)) keys)) as [d|es].
  - unfold tileResume. rewrite Hpacked. simpl. split; congruence.
  - split; discriminate.
Qed.

(** C1, as amended: on a loader that is not packed-multichannel, a tile
    request whose level resolves to an array [a] is fulfilled with
    exactly the buffers the store returns for the active selections, one
    per selection and in selection order, the read for selection [sel]
    being issued at the copy of [sel] whose Y entry is [y] and whose X
    entry is [x]; so one selection gives one buffer and three give
    three. *)
Theorem getTile_one_buffer_per_selection
    (ld : ZarrLoader) (t : TileIndex) (a : ZarrArray) :
  _isUnchunkedMultiChannel ld = Ok false ->
  _getSource ld (z t) = SrcArray a ->
  (forall bufs,
      getTile ld t = Fulfilled bufs <->
      Forall2 (fun sel buf =>
                 exists r, getRawChunk a (tileKey ld (x t) (y t) sel) = Ok r
                           /\ data r = buf)
              (channelSelections ld) bufs)
  /\ (forall bufs,
         getTile ld t = Fulfilled bufs ->
         List.length bufs = List.length (channelSelections ld))
  /\ (forall sel i,
         0 <= _yIndex ld < len sel ->
         0 <= _xIndex ld < len sel ->
         len (tileKey ld (x t) (y t) sel) = len sel /\
         get (tileKey ld (x t) (y t) sel) i =
         if i =? _xIndex ld then Some (Idx (x t))
         else if i =? _yIndex ld then Some (Idx (y t))
         else option_map Idx (get sel i)).
Proof.
  intros Hpacked Hsource. split; [|split].
  - intros bufs. now apply getTile_unpacked.
  - intros bufs E. apply (getTile_unpacked ld t a bufs Hpacked Hsource) in E.
    symmetry. eapply Forall2_length, E.
  - intros sel i Hy Hx. split.
    + apply tileKey_len; lia.
    + now apply tileKey_entries.
Qed.

End TileReads.

Section TileExamples.

#[local] Existing Instance Sample.utils.

(** Five channels, three of them selected: the tile is the three buffers
    of channels 2, 0 and 4, in that order. *)
Lemma getTile_one_buffer_per_selection_witness :
  channelSelections Sample.threeLoader = [[2; 0; 0]; [0; 0; 0]; [4; 0; 0]] /\
  getTile Sample.threeLoader Sample.tile00 =
  Fulfilled [Sample.channel 2; Sample.channel 0; Sample.channel 4].
Proof.
  split; [reflexivity|].
  destruct (getTile_one_buffer_per_selection
              Sample.threeLoader Sample.tile00 Sample.plainArray
              eq_refl eq_refl)
    as (Hiff & _ & _).
  apply Hiff. repeat constructor; eexists; split; reflexivity.
Defined.

(** C1 as stated fails on a packed-multichannel loader: one active
    selection, three buffers. *)
Lemma getTile_packed_counterexample :
  channelSelections Sample.packedLoader = [[0; 0; 0]] /\
  getTile Sample.packedLoader Sample.tile00 =
  Fulfilled [Sample.window 12 0 4; Sample.window 12 4 4; Sample.window 12 8 4]
  /\ ~ (forall bufs,
          getTile Sample.packedLoader Sample.tile00 = Fulfilled bufs ->
          List.length bufs = List.length (channelSelections Sample.packedLoader)).
Proof.
  split; [reflexivity|]. split; [reflexivity|].
  intros H. specialize (H _ eq_refl). discriminate H.
Qed.

End TileExamples.

(* ================================================================== *)
(** ** Raster reads                                                    *)
(* ================================================================== *)

Section RasterReads.

Context `{U : Utils}.



Lemma settle_fulfilled {A} (r : result A) (v : A) :
  settle r = Fulfilled v <-> r = Ok v.
Proof. destruct r; simpl; split; congruence. Qed.

(** A raster request whose level resolves to an array and whose reads are
    all answered. *)
Lemma getRaster_answered (ld : ZarrLoader) (z : option Z) (packed : bool)
    (a : ZarrArray) (bufs views : list TypedArray) :
  _isUnchunkedMultiChannel ld = Ok packed ->
  _getSource ld z = SrcArray a ->
  Forall2 (fun sel buf =>
             exists key r, rasterKey ld sel = Ok key /\
                           getRaw a key = Ok r /\ data r = buf)
          (channelSelections ld) bufs ->
  (if packed then _decodeChannels ld (get bufs 0) = Ok views
   else views = bufs) ->
  getRaster ld z =
  Fulfilled {| rasterData := views;
               width := get (shape a) (_xIndex ld);
               height := get (shape a) (_yIndex ld) |}.
Proof.
  intros Hpacked Hsource Hreads Hviews.
  unfold getRaster, rasterRequests, channelSelections in *.
  rewrite Hsource, map_map.
  assert (Hall : Promise_all
                   (map (fun sel => k <- rasterKey ld sel ;;
                                    readPlane (SrcArray a) k)
                        (_channelSelections ld)) = Fulfilled bufs).
  { apply Promise_all_fulfilled, Forall2_map_left.
    clear Hviews.
    induction Hreads as [|sel buf sels bufs' (key & r & Ek & Er & Eb) _ IH];
      constructor; auto.
    rewrite Ek. simpl. rewrite Er. simpl. now rewrite Eb. }
  rewrite Hall. unfold rasterResume. simpl. rewrite Hpacked. simpl.
  destruct packed.
  - rewrite Hviews. reflexivity.
  - now subst views.
Qed.

End RasterReads.

Section RasterExamples.

#[local] Existing Instance Sample.utils.

(** C2 on a loader that is both RGB-interleaved and packed, over a store
    that answers honestly: [getRaster] opens Y, X and the final axis but
    not the axis before Y, so the store answers with the 48 elements of
    the first time point alone; the result is nonetheless split by the
    packed chunk size, into two halves of that one plane.  [getTile] on
    the same loader returns the two packed entries, 48 elements each. *)
Theorem getRaster_rgb_packed_halves :
  isRgb Sample.twoTimesRgbLoader = true /\
  _isUnchunkedMultiChannel Sample.twoTimesRgbLoader = Ok true /\
  _yIndex Sample.twoTimesRgbLoader - 1 = 0 /\
  snd (rasterRequests Sample.twoTimesRgbLoader None)
  = [Ok [Idx 0; Whole; Whole; Whole]] /\
  getRaw Sample.twoTimesRgb [Idx 0; Whole; Whole; Whole]
  = Ok {| data := Sample.whole 48; rawShape := [2; 4; 4; 3] |} /\
  getRaster Sample.twoTimesRgbLoader None
  = Fulfilled {| rasterData := [Sample.window 48 0 24; Sample.window 48 24 24];
                 width := Some 4; height := Some 4 |} /\
  getTile Sample.twoTimesRgbLoader {| x := 0; y := 0; z := None |}
  = Fulfilled [Sample.window 96 0 48; Sample.window 96 48 48].
Proof. repeat split. Qed.

End RasterExamples.

(* ================================================================== *)
(** ** Channel splitting                                               *)
(* ================================================================== *)

Section ChannelSplit.

Context `{U : Utils}.

Lemma ToIntegerOrInfinity_integer (q : Q) (n : Z) :
  (q == inject_Z n)%Q -> ToIntegerOrInfinity q = n.
Proof.
  unfold Qeq, ToIntegerOrInfinity. simpl. intros H.
  rewrite Z.mul_1_r in H. rewrite H. apply Z.quot_mul. discriminate.
Qed.

Lemma offset_begin (C k i : Z) :
  0 < C ->
  (inject_Z (C * k) / inject_Z C * inject_Z i == inject_Z (k * i))%Q.
Proof.
  intros HC. rewrite !inject_Z_mult. field.
  intros H. unfold Qeq in H. simpl in H. lia.
Qed.

Lemma offset_end (C k i : Z) :
  0 < C ->
  (inject_Z (C * k) / inject_Z C * inject_Z i + inject_Z (C * k) / inject_Z C
   == inject_Z (k * i + k))%Q.
Proof.
  intros HC. rewrite inject_Z_plus, !inject_Z_mult. field.
  intros H. unfold Qeq in H. simpl in H. lia.
Qed.

Lemma subarray_window (t : TypedArray) (b e : Q) (bi ei : Z) :
  ToIntegerOrInfinity b = bi -> ToIntegerOrInfinity e = ei ->
  0 <= bi <= ei -> ei <= length t ->
  subarray t b e =
  {| buffer := buffer t; byteOffset := byteOffset t + bi; length := ei - bi |}.
Proof.
  intros Eb Ee Hb He. unfold subarray, relative. rewrite Eb, Ee.
  destruct (Z.ltb_spec bi 0); [lia|].
  destruct (Z.ltb_spec ei 0); [lia|].
  f_equal; lia.
Qed.

Lemma range_members (n i : Z) : In i (range n) -> 0 <= i < n.
Proof.
  unfold range. rewrite in_map_iff. intros (m & <- & Hm).
  apply in_seq in Hm. lia.
Qed.

Lemma len_range (n : Z) : 0 <= n -> len (range n) = n.
Proof.
  intros Hn. unfold len, range. rewrite length_map, length_seq. lia.
Qed.

Lemma get_range (n i : Z) : 0 <= i < n -> get (range n) i = Some i.
Proof.
  intros Hi. unfold get, range.
  destruct (Z.ltb_spec i 0); [lia|].
  rewrite nth_error_map, nth_error_seq.
  destruct (Nat.ltb_spec (Z.to_nat i) (Z.to_nat n)); [|lia].
  simpl. f_equal. lia.
Qed.

Lemma decodeChannels_views (C k : Z) (t : TypedArray) :
  0 < C -> 0 <= k -> length t = C * k ->
  decodeChannels C t = map (view t k) (range C).
Proof.
  intros HC Hk HL. unfold decodeChannels. apply map_ext_in.
  intros i Hi%range_members. rewrite HL.
  rewrite (subarray_window t _ _ (k * i) (k * i + k)).
  - unfold view. f_equal; lia.
  - apply ToIntegerOrInfinity_integer, offset_begin, HC.
  - apply ToIntegerOrInfinity_integer, offset_end, HC.
  - nia.
  - nia.
Qed.

Lemma firstn_plus {A} (a b : nat) (l : list A) :
  firstn (a + b) l = firstn a l ++ firstn b (skipn a l).
Proof.
  revert l. induction a as [|a IH]; intros [|h l]; simpl; auto.
  - now rewrite firstn_nil.
  - now rewrite IH.
Qed.

Lemma concat_windows {A} (K first N : nat) (buf : list A) :
  List.concat (map (fun n => firstn K (skipn (first + n * K) buf)) (seq 0 N))
  = firstn (N * K) (skipn first buf).
Proof.
  induction N as [|N IH]; [reflexivity|].
  rewrite seq_S, map_app, concat_app, IH. simpl.
  rewrite app_nil_r, (Nat.add_comm K), firstn_plus, skipn_skipn.
  do 3 f_equal. lia.
Qed.

(** C3, as amended: when the packed channel count [C] is positive and
    divides the buffer's length [L = C * k], the splitting routine
    returns exactly [C] views of the buffer; view [i] is the window
    [[i * k, (i + 1) * k)], of length [k = L / C]; the views do not
    overlap and, laid end to end, are the whole buffer. *)
Theorem decodeChannels_split (ld : ZarrLoader) (b : ZarrArray)
    (t : TypedArray) (C k : Z) :
  base ld = Some b ->
  get (chunks b) (_yIndex ld - 1) = Some C ->
  0 < C -> 0 <= k -> 0 <= byteOffset t ->
  length t = C * k ->
  exists views,
    _decodeChannels ld (Some t) = Ok views /\
    len views = C /\
    (forall i, 0 <= i < C ->
               get views i =
               Some {| buffer := buffer t;
                       byteOffset := byteOffset t + i * k;
                       length := k |}) /\
    (forall i j vi vj,
        0 <= i < j -> get views i = Some vi -> get views j = Some vj ->
        byteOffset vi + length vi <= byteOffset vj) /\
    List.concat (map elements views) = elements t.
Proof.
  intros Hbase HC Hpos Hk Hoff HL.
  exists (map (view t k) (range C)).
  assert (Hget : forall i, 0 <= i < C ->
                           get (map (view t k) (range C)) i = Some (view t k i)).
  { intros i Hi. now rewrite get_map, get_range. }
  split; [|split; [|split; [|split]]].
  - unfold _decodeChannels. rewrite Hbase. simpl. rewrite HC. simpl.
    now rewrite (decodeChannels_views C k).
  - rewrite len_map. apply len_range. lia.
  - exact Hget.
  - intros i j vi vj Hij Ei Ej.
    pose proof (get_some_range _ _ _ Ej) as Hj.
    rewrite len_map, len_range in Hj by lia.
    rewrite Hget in Ei, Ej by lia.
    injection Ei as <-. injection Ej as <-. simpl. nia.
  - unfold range. rewrite !map_map. unfold elements at 2. rewrite HL.
    replace (Z.to_nat (C * k)) with (Z.to_nat C * Z.to_nat k)%nat by nia.
    rewrite <- concat_windows. f_equal. apply map_ext. intros n.
    unfold elements, view. simpl. do 2 f_equal. nia.
Qed.

End ChannelSplit.

Section ChannelSplitExamples.

#[local] Existing Instance Sample.utils.

(** Twelve elements and three channels: views of length four on
    [[0,4)], [[4,8)] and [[8,12)]. *)
Lemma decodeChannels_split_witness :
  _decodeChannels Sample.packedLoader (Some (Sample.whole 12)) =
  Ok [Sample.window 12 0 4; Sample.window 12 4 4; Sample.window 12 8 4] /\
  exists views,
    _decodeChannels Sample.packedLoader (Some (Sample.whole 12)) = Ok views /\
    len views = 3 /\
    List.concat (map elements views) = elements (Sample.whole 12).
Proof.
  split; [reflexivity|].
  destruct (decodeChannels_split Sample.packedLoader Sample.packedArray
              (Sample.whole 12) 3 4 eq_refl eq_refl)
    as (views & E & Hlen & _ & _ & Hcover); try (vm_compute; congruence).
  exists views. auto.
Defined.

(** C3 as stated fails when the channel count does not divide the
    length: ten elements over four channels are cut at 2, 5 and 7, into
    views of two and three elements. *)
Lemma decodeChannels_ragged_counterexample :
  getRaster Sample.raggedLoader None =
  Fulfilled {| rasterData := [Sample.window 10 0 2; Sample.window 10 2 3;
                              Sample.window 10 5 2; Sample.window 10 7 3];
               width := Some 2; height := Some 1 |} /\
  decodeChannels 4 (Sample.whole 10) =
  [Sample.window 10 0 2; Sample.window 10 2 3;
   Sample.window 10 5 2; Sample.window 10 7 3] /\
  ~ (exists k, Forall (fun v => length v = k)
                      (decodeChannels 4 (Sample.whole 10))).
Proof.
  split; [reflexivity|]. split; [reflexivity|].
  intros (k & H). vm_compute in H.
  inversion H as [|v vs H1 H2]; subst.
  inversion H2 as [|v' vs' H3 _]; subst. discriminate H3.
Qed.

End ChannelSplitExamples.

(* ================================================================== *)
(** ** Construction and the selection set                              *)
(* ================================================================== *)

Section Selections.

Context `{U : Utils}.

(** What a successful construction leaves in the loader. *)
Lemma constructor_ok (data : ZarrData) (dims : option (list Dimension))
    (rgb : option bool) (sc : option Q) (tr : option (list Q))
    (ld : ZarrLoader) :
  constructor data dims rgb sc tr = Ok ld ->
  exists b,
    base ld = Some b /\
    _data ld = data /\
    isRgb ld = match rgb with
               | Some true => true
               | _ => guessRgb (shape b)
               end /\
    _xIndex ld = _yIndex ld + 1 /\
    _xIndex ld < len (shape b) /\
    _channelSelections ld = [repeat 0 (List.length (shape b))].
Proof.
  unfold constructor. intros H.
  assert (Hb : exists b n,
             match data with
             | Levels l =>
                 if negb (ensureDecreasing (map shape l)) then Err DecreasingError
                 else Ok (get l 0, len l)
             | Single a => Ok (Some a, 1)
             end = Ok (Some b, n) /\
             match data with Levels l => get l 0 | Single a => Some a end = Some b).
  { destruct data as [a|l]; simpl in *.
    - eauto.
    - destruct (negb (ensureDecreasing (map shape l))); simpl in H; [discriminate|].
      destruct (get l 0) as [b|]; simpl in H; [eauto|discriminate]. }
  destruct Hb as (b & n & E & Hbase). rewrite E in H. simpl in H.
  exists b.
  assert (Hdims : exists u,
             match dims with
             | Some ds =>
                 if negb (len ds =? len (shape b)) then Err DimensionLabelsError
                 else Ok tt
             | None => Ok tt
             end = Ok u).
  { destruct dims as [ds|]; [|eauto].
    destruct (negb (len ds =? len (shape b))); simpl in H; [discriminate|eauto]. }
  destruct Hdims as (u & Ed). rewrite Ed in H. simpl in H.
  injection H as <-. unfold base. simpl.
  repeat split; auto;
    match goal with
    | |- context [if ?c then _ else _] => destruct c; simpl; lia
    end.
Qed.

Lemma base_assign (ld : ZarrLoader) (next : list (list Z)) :
  base (assignChannelSelections ld next) = base ld.
Proof. reflexivity. Qed.

Lemma some_from_false {A} (p : A -> Z -> bool) (l : list A) (n : Z) :
  some_from p n l = false <->
  forall j a, nth_error l j = Some a -> p a (n + Z.of_nat j) = false.
Proof.
  revert n. induction l as [|h t IH]; intros n; simpl.
  - split; [|reflexivity]. intros _ [|j] a; discriminate.
  - rewrite orb_false_iff, IH. split.
    + intros [Hh Ht] [|j] a E; simpl in E.
      * injection E as <-. now rewrite Z.add_0_r.
      * replace (n + Z.of_nat (S j)) with (n + 1 + Z.of_nat j) by lia. eauto.
    + intros H. split.
      * specialize (H O h eq_refl). now rewrite Z.add_0_r in H.
      * intros j a E. specialize (H (S j) a E).
        now replace (n + Z.of_nat (S j)) with (n + 1 + Z.of_nat j) in H by lia.
Qed.

Lemma some_false {A} (p : A -> Z -> bool) (l : list A) :
  some p l = false <-> forall i a, get l i = Some a -> p a i = false.
Proof.
  unfold some. rewrite some_from_false. unfold get. split.
  - intros H i a. destruct (Z.ltb_spec i 0); [discriminate|].
    intros E. specialize (H _ _ E). simpl in H.
    now rewrite Z2Nat.id in H by lia.
  - intros H j a E. apply H. destruct (Z.ltb_spec (0 + Z.of_nat j) 0); [lia|].
    simpl. now rewrite Nat2Z.id.
Qed.

(** The loop body accepts exactly the selections that fit the base array
    and rejects the others with one of its two errors. *)
Lemma validateSelection_spec (ld : ZarrLoader) (b : ZarrArray) (sel : list Z) :
  base ld = Some b ->
  (validateSelection ld sel = Ok tt /\ fits b sel) \/
  (exists e, validateSelection ld sel = Err e /\ isConfigurationError e = true
             /\ ~ fits b sel).
Proof.
  intros Hbase. unfold validateSelection, fits. rewrite Hbase. simpl.
  destruct (Z.eqb_spec (len sel) (len (shape b))) as [Hlen|Hlen]; simpl.
  - destruct (some _ sel) eqn:Hsome.
    + right. eexists. repeat split. intros [_ Hzero].
      assert (Hfalse : some (fun key i => negb (key =? 0) &&
                                          gt1 (get (chunks b) i)) sel = false).
      { apply some_false. intros i key E.
        destruct (gt1 (get (chunks b) i)) eqn:G.
        - rewrite (Hzero i key E G). reflexivity.
        - apply andb_false_r. }
      congruence.
    + left. repeat split; auto. intros i key E G.
      rewrite some_false in Hsome. specialize (Hsome i key E).
      rewrite G, andb_true_r in Hsome.
      destruct (Z.eqb_spec key 0); [assumption|discriminate].
  - right. eexists. repeat split. intros [H _]. contradiction.
Qed.

Lemma validateSelections_spec (ld : ZarrLoader) (b : ZarrArray)
    (sels : list (list Z)) :
  base ld = Some b ->
  (validateSelections ld sels = Ok tt /\ Forall (fits b) sels) \/
  (exists e, validateSelections ld sels = Err e /\ isConfigurationError e = true
             /\ ~ Forall (fits b) sels).
Proof.
  intros Hbase. induction sels as [|sel sels IH]; simpl.
  - left. split; [reflexivity|constructor].
  - destruct (validateSelection_spec ld b sel Hbase) as [[E F]|(e & E & C & F)];
      rewrite E; simpl.
    + destruct IH as [[E' F']|(e & E' & C & F')].
      * left. split; [assumption|now constructor].
      * right. exists e. repeat split; auto.
        intros H. inversion H. contradiction.
    + right. exists e. repeat split; auto.
      intros H. inversion H. contradiction.
Qed.

Lemma packed_defined (ld : ZarrLoader) (b : ZarrArray) :
  base ld = Some b -> exists p, _isUnchunkedMultiChannel ld = Ok p.
Proof.
  intros Hbase. unfold _isUnchunkedMultiChannel. rewrite Hbase. simpl.
  destruct (0 <=? _yIndex ld - 1); eauto.
Qed.

(** C4: once the argument is normalized to a list of numeric selections,
    [setChannelSelections] throws one of the loader's configuration errors
    whenever that list has more than one selection on an RGB-interleaved
    or packed-multichannel loader, or holds a selection whose length is
    not the rank of the base array, or holds a selection with a non-zero
    entry at an axis whose chunk is longer than one; and the loader it
    leaves is the loader it found. *)
Theorem setChannelSelections_rejects (ld : ZarrLoader) (b : ZarrArray)
    (arg : SelectionsArg) (next : list (list Z)) :
  base ld = Some b ->
  mapThrowing (normalizeSelection ld) (wrapSelections arg) = Ok next ->
  (1 < len next /\
   (isRgb ld = true \/ _isUnchunkedMultiChannel ld = Ok true))
  \/ Exists (fun sel => len sel <> len (shape b)) next
  \/ Exists (fun sel => exists i key c,
                 get sel i = Some key /\ key <> 0 /\
                 get (chunks b) i = Some c /\ 1 < c) next ->
  exists e,
    setChannelSelections ld arg = (Err e, ld) /\
    isConfigurationError e = true.
Proof.
  intros Hbase Hnorm Hbad.
  unfold setChannelSelections, nextChannelSelections.
  rewrite Hnorm. simpl.
  destruct (packed_defined ld b Hbase) as (p & Hp).
  assert (Hspecial : exists s,
             (if isRgb ld then Ok true else _isUnchunkedMultiChannel ld) = Ok s
             /\ (isRgb ld = true \/ _isUnchunkedMultiChannel ld = Ok true ->
                 s = true)).
  { destruct (isRgb ld).
    - exists true. auto.
    - exists p. split; [assumption|]. intros [?|?]; congruence. }
  destruct Hspecial as (s & -> & Hs). simpl.
  destruct (s && (1 <? len next)) eqn:Hmany.
  - exists MultipleSelectionsError. split; reflexivity.
  - destruct (validateSelections_spec ld b next Hbase)
      as [[E F]|(e & E & C & _)]; rewrite E; simpl.
    + exfalso. destruct Hbad as [[Hlen Hs']|[Hbad|Hbad]].
      * rewrite (Hs Hs') in Hmany. simpl in Hmany.
        destruct (Z.ltb_spec 1 (len next)); [discriminate|lia].
      * apply Exists_exists in Hbad as (sel & Hin & Hlen).
        rewrite Forall_forall in F. destruct (F sel Hin). contradiction.
      * apply Exists_exists in Hbad as (sel & Hin & i & key & c & E1 & Hk & E2 & Hc).
        rewrite Forall_forall in F. destruct (F sel Hin) as [_ Hzero].
        apply Hk, (Hzero i key E1). rewrite E2. simpl.
        now apply Z.ltb_lt.
    + exists e. split; [reflexivity|assumption].
Qed.


(** X20: a loader fresh from the constructor has one active selection, the
    vector of zeros with one entry per axis of the base array; when it is
    not packed-multichannel, a tile request and a raster request whose
    level resolves to an array each issue one read, and return the one
    buffer the store answers with. *)
Theorem fresh_loader_reads_once (data : ZarrData)
    (dims : option (list Dimension)) (rgb : option bool) (sc : option Q)
    (tr : option (list Q)) (ld : ZarrLoader) :
  constructor data dims rgb sc tr = Ok ld ->
  exists b,
    base ld = Some b /\
    channelSelections ld = [repeat 0 (List.length (shape b))] /\
    (_isUnchunkedMultiChannel ld = Ok false ->
     (forall t, exists key,
         snd (tileRequests ld t) = [key] /\
         forall a r,
           _getSource ld (z t) = SrcArray a ->
           getRawChunk a key = Ok r ->
           getTile ld t = Fulfilled [Zarr.data r]) /\
     (forall z, exists key,
         snd (rasterRequests ld z) = [Ok key] /\
         forall a r,
           _getSource ld z = SrcArray a ->
           getRaw a key = Ok r ->
           getRaster ld z =
           Fulfilled {| rasterData := [Zarr.data r];
                        width := get (shape a) (_xIndex ld);
                        height := get (shape a) (_yIndex ld) |})).
Proof.
  intros Hnew.
  destruct (constructor_ok _ _ _ _ _ _ Hnew) as (b & Hbase & _ & _ & _ & _ & Hsel).
  exists b. split; [assumption|]. split; [assumption|].
  intros Hpacked. split.
  - intros t. eexists. split.
    + unfold tileRequests. rewrite Hsel. reflexivity.
    + intros a r Hsource Hread.
      apply (getTile_unpacked ld t a _ Hpacked Hsource).
      unfold channelSelections. rewrite Hsel.
      constructor; [eauto|constructor].
  - intros z.
    assert (Hkey : exists key,
               rasterKey ld (repeat 0 (List.length (shape b))) = Ok key).
    { unfold rasterKey. destruct (isRgb ld); [eauto|].
      rewrite Hpacked. simpl. eauto. }
    destruct Hkey as (key & Hkey). exists key. split.
    + unfold rasterRequests. rewrite Hsel. simpl. now rewrite Hkey.
    + intros a r Hsource Hread.
      apply (getRaster_answered ld z false a [Zarr.data r] _ Hpacked Hsource);
        [|reflexivity].
      unfold channelSelections. rewrite Hsel.
      constructor; [eauto|constructor].
Qed.

(** C10: the constructor takes the interleaved-layout flag from the
    heuristic on the base array's shape unless its [isRgb] argument is
    [true]; giving [false] builds what omitting the argument builds, also
    when the heuristic answers [true]. *)
Theorem constructor_isRgb (data : ZarrData) (dims : option (list Dimension))
    (rgb : option bool) (sc : option Q) (tr : option (list Q))
    (ld : ZarrLoader) :
  constructor data dims rgb sc tr = Ok ld ->
  constructor data dims (Some false) sc tr = constructor data dims None sc tr /\
  exists b,
    base ld = Some b /\
    isRgb ld = match rgb with
               | Some true => true
               | Some false | None => guessRgb (shape b)
               end.
Proof.
  intros Hnew. split; [reflexivity|].
  destruct (constructor_ok _ _ _ _ _ _ Hnew) as (b & Hbase & _ & Hrgb & _).
  exists b. split; [assumption|]. rewrite Hrgb.
  destruct rgb as [[|]|]; reflexivity.
Qed.

End Selections.

Section SelectionExamples.

#[local] Existing Instance Sample.utils.

(** A selection of two entries for an array of rank three is refused and
    the loader stays as it was. *)
Lemma setChannelSelections_rejects_witness :
  exists e,
    setChannelSelections Sample.plainLoader Sample.shortSelection
    = (Err e, Sample.plainLoader) /\
    isConfigurationError e = true.
Proof.
  apply (setChannelSelections_rejects
           Sample.plainLoader Sample.plainArray Sample.shortSelection [[0; 0]]);
    [reflexivity|reflexivity|].
  right. left. constructor. vm_compute. discriminate.
Defined.


(** A fresh loader over five unpacked channels. *)
Lemma fresh_loader_reads_once_witness :
  channelSelections Sample.plainLoader = [[0; 0; 0]] /\
  getTile Sample.plainLoader Sample.tile00 = Fulfilled [Sample.channel 0] /\
  getRaster Sample.plainLoader None =
  Fulfilled {| rasterData := [Sample.whole 4];
               width := Some 8; height := Some 8 |}.
Proof.
  destruct (fresh_loader_reads_once
              (Single Sample.plainArray) None None None None
              Sample.plainLoader eq_refl)
    as (b & Hbase & Hsel & Hreads).
  injection Hbase as <-.
  destruct (Hreads eq_refl) as [Htile Hraster].
  split; [exact Hsel|]. split.
  - destruct (Htile Sample.tile00) as (key & Ekey & Hread).
    injection Ekey as <-.
    apply (Hread Sample.plainArray
                 {| data := Sample.channel 0; rawShape := [1; 2; 2] |});
      reflexivity.
  - destruct (Hraster None) as (key & Ekey & Hread).
    injection Ekey as <-.
    apply (Hread Sample.plainArray
                 {| data := Sample.whole 4; rawShape := [5; 8; 8] |});
      reflexivity.
Defined.

(** An array of shape [2; 4; 4; 3] built with [isRgb] given as [false]
    is interleaved all the same. *)
Lemma constructor_isRgb_witness :
  isRgb Sample.rgbGuessedLoader = true /\
  constructor (Single Sample.rgbPackedArray) None (Some false) None None
  = constructor (Single Sample.rgbPackedArray) None None None None.
Proof.
  destruct (constructor_isRgb
              (Single Sample.rgbPackedArray) None (Some false) None None
              Sample.rgbGuessedLoader eq_refl)
    as (Hsame & b & Hbase & Hrgb).
  split; [|exact Hsame].
  injection Hbase as <-. exact Hrgb.
Defined.

End SelectionExamples.

(* ================================================================== *)
(** ** Levels                                                          *)
(* ================================================================== *)

Section Levels.

Context `{U : Utils}.

(** What [_getSource] yields, by the kind of data and of level. *)
Lemma _getSource_cases (ld : ZarrLoader) (z : option Z) :
  match _data ld, z with
  | Single a, _ => _getSource ld z = SrcArray a
  | Levels l, Some n =>
      _getSource ld z = match get l n with
                        | Some a => SrcArray a
                        | None => SrcUndefined
                        end
  | Levels l, None => _getSource ld z = SrcLevels l
  end.
Proof.
  unfold _getSource. destruct (_data ld), z; reflexivity.
Qed.

End Levels.

Section LevelExamples.

#[local] Existing Instance Sample.utils.

(** C6 on a pyramid of two levels read without a level: [_getSource]
    yields the list of levels, not an array, and the read that follows is
    rejected with a [TypeError]; the [base] getter of the same loader
    yields level 0. *)
Theorem _getSource_pyramid_without_level :
  constructor (Levels [Sample.level0; Sample.level1]) None None None None
  = Ok Sample.pyramidLoader /\
  _getSource Sample.pyramidLoader None
  = SrcLevels [Sample.level0; Sample.level1] /\
  (forall a, _getSource Sample.pyramidLoader None <> SrcArray a) /\
  getRaster Sample.pyramidLoader None = Rejected [TypeError] /\
  getTile Sample.pyramidLoader Sample.tile00 = Rejected [TypeError] /\
  base Sample.pyramidLoader = Some Sample.level0 /\
  _getSource Sample.pyramidLoader (Some 1) = SrcArray Sample.level1 /\
  _getSource Sample.pyramidLoader (Some 2) = SrcUndefined /\
  _getSource Sample.plainLoader (Some 2) = SrcArray Sample.plainArray.
Proof.
  repeat split. intros a H. discriminate H.
Qed.

(** C9 on a pyramid of two levels fresh from the constructor: one
    selection of zeros, not packed, yet a raster request or a tile request
    without a level reaches no array (every read on what [_getSource]
    yields is a [TypeError]) and is rejected without a buffer; with the
    level given the same loader returns its one buffer. *)
Theorem fresh_pyramid_without_level :
  constructor (Levels [Sample.level0; Sample.level1]) None None None None
  = Ok Sample.pyramidLoader /\
  channelSelections Sample.pyramidLoader = [[0; 0]] /\
  _isUnchunkedMultiChannel Sample.pyramidLoader = Ok false /\
  (forall key,
      readPlane (_getSource Sample.pyramidLoader None) key = Err TypeError /\
      readChunk (_getSource Sample.pyramidLoader None) key = Err TypeError) /\
  getRaster Sample.pyramidLoader None = Rejected [TypeError] /\
  getTile Sample.pyramidLoader {| x := 0; y := 0; z := None |}
  = Rejected [TypeError] /\
  getRaster Sample.pyramidLoader (Some 0)
  = Fulfilled {| rasterData := [Sample.whole 4];
                 width := Some 8; height := Some 8 |} /\
  getTile Sample.pyramidLoader {| x := 0; y := 0; z := Some 0 |}
  = Fulfilled [Sample.whole 4].
Proof. repeat split. Qed.

End LevelExamples.

(* ================================================================== *)
(** ** The read-failure hook                                           *)
(* ================================================================== *)

Section Errors.

Context `{U : Utils}.

Lemma prefix_append (s1 s2 : string) :
  String.prefix s1 s2 = true <-> exists rest, s2 = (s1 ++ rest)%string.
Proof.
  revert s2. induction s1 as [|a s1 IH]; intros s2.
  - destruct s2; simpl; split; eauto.
  - destruct s2 as [|b s2]; simpl.
    + split; [discriminate|]. intros (rest & H). discriminate H.
    + destruct (ascii_dec a b) as [->|Hne].
      * rewrite IH. split; intros (rest & H); exists rest; congruence.
      * split; [discriminate|]. intros (rest & H). congruence.
Qed.

Lemma includes_unfold (needle hay : string) :
  includes needle hay =
  if String.prefix needle hay then true
  else match hay with
       | EmptyString => false
       | String _ rest => includes needle rest
       end.
Proof. destruct hay; reflexivity. Qed.

(** [includes] finds exactly the substrings. *)
Lemma includes_substring (needle hay : string) :
  includes needle hay = true <->
  exists before after, hay = (before ++ needle ++ after)%string.
Proof.
  induction hay as [|c hay IH]; rewrite includes_unfold.
  - destruct (String.prefix needle "") eqn:P.
    + split; [|reflexivity]. intros _.
      apply prefix_append in P as (rest & H). exists ""%string, rest. exact H.
    + split; [discriminate|]. intros (before & after & H).
      destruct before; simpl in H.
      * assert (String.prefix needle "" = true) by (apply prefix_append; eauto).
        congruence.
      * discriminate H.
  - destruct (String.prefix needle (String c hay)) eqn:P.
    + split; [|reflexivity]. intros _.
      apply prefix_append in P as (rest & H). exists ""%string, rest. exact H.
    + rewrite IH. split.
      * intros (before & after & ->). exists (String c before), after. reflexivity.
      * intros (before & after & H). destruct before as [|c' before]; simpl in H.
        -- assert (String.prefix needle (String c hay) = true)
             by (apply prefix_append; eauto).
           congruence.
        -- injection H as _ ->. eauto.
Qed.

(** C7, as amended: [onTileError] returns normally exactly on the errors
    whose message contains the text [RangeError], and on any other error
    raises that error itself. *)
Theorem onTileError_policy (e : Error) :
  (onTileError e = Ok tt <-> mentionsRangeError e) /\
  (onTileError e = Ok tt \/ onTileError e = Err (Thrown e)).
Proof.
  unfold onTileError, mentionsRangeError.
  rewrite <- includes_substring.
  destruct (includes "RangeError" (message e)); simpl; split.
  - split; reflexivity.
  - left. reflexivity.
  - split; discriminate.
  - right. reflexivity.
Qed.

(** C7 as stated fails both ways on a store that checks bounds and names
    its error after the check: the error it raises for chunk 5 of 5 has
    no [RangeError] in its message and is raised again by the hook, and
    the error it raises for chunk 4, which is within bounds and cannot be
    decoded, has the text and is swallowed. *)
Lemma onTileError_text_counterexample :
  (isOutOfBoundsRead Sample.boundedArray Sample.boundsError /\
   onTileError Sample.boundsError = Err (Thrown Sample.boundsError)) /\
  (exceedsExtent (shape Sample.boundedArray) (chunks Sample.boundedArray)
                 [Idx 4; Idx 0; Idx 0] = false /\
   getRawChunk Sample.boundedArray [Idx 4; Idx 0; Idx 0]
   = Err (Thrown Sample.corrupt) /\
   ~ isOutOfBoundsRead Sample.boundedArray Sample.corrupt /\
   onTileError Sample.corrupt = Ok tt).
Proof.
  split; [split|repeat split].
  - exists [Idx 5; Idx 0; Idx 0]. split; reflexivity.
  - reflexivity.
  - intros (key & Hout & Hread). simpl in Hout, Hread.
    rewrite Hout in Hread. discriminate Hread.
Qed.

End Errors.

(* ================================================================== *)
(** ** Calls in flight while the selections are replaced               *)
(* ================================================================== *)

Section Schedules.

Context `{U : Utils}.

Lemma layout_fields (l1 l2 : ZarrLoader) :
  layout l1 = layout l2 ->
  isRgb l1 = isRgb l2 /\ _xIndex l1 = _xIndex l2 /\
  _yIndex l1 = _yIndex l2 /\ _data l1 = _data l2.
Proof. unfold layout. intros H. injection H. auto. Qed.

(** [setChannelSelections] assigns nothing but the selections. *)
Lemma layout_setChannelSelections (ld : ZarrLoader) (arg : SelectionsArg) :
  layout (snd (setChannelSelections ld arg)) = layout ld.
Proof.
  unfold setChannelSelections.
  destruct (nextChannelSelections ld arg); reflexivity.
Qed.

Lemma packed_layout (l1 l2 : ZarrLoader) :
  layout l1 = layout l2 ->
  _isUnchunkedMultiChannel l1 = _isUnchunkedMultiChannel l2.
Proof.
  intros (_ & _ & Hy & Hd)%layout_fields.
  unfold _isUnchunkedMultiChannel, base. now rewrite Hy, Hd.
Qed.

Lemma _decodeChannels_layout (l1 l2 : ZarrLoader) (d : option TypedArray) :
  layout l1 = layout l2 -> _decodeChannels l1 d = _decodeChannels l2 d.
Proof.
  intros (_ & _ & Hy & Hd)%layout_fields.
  unfold _decodeChannels, base. now rewrite Hy, Hd.
Qed.

(** The second piece of [getTile] reads no selection. *)
Lemma tileResume_layout (l1 l2 : ZarrLoader) (d : list TypedArray) :
  layout l1 = layout l2 -> tileResume l1 d = tileResume l2 d.
Proof.
  intros H. unfold tileResume.
  now rewrite (packed_layout l1 l2 H), (_decodeChannels_layout l1 l2 _ H).
Qed.

(** The second piece of [getRaster] reads no selection. *)
Lemma rasterResume_layout (l1 l2 : ZarrLoader) (src : Source)
    (d : list TypedArray) :
  layout l1 = layout l2 -> rasterResume l1 src d = rasterResume l2 src d.
Proof.
  intros H. unfold rasterResume.
  rewrite (packed_layout l1 l2 H), (_decodeChannels_layout l1 l2 _ H).
  destruct (layout_fields l1 l2 H) as (_ & -> & -> & _). reflexivity.
Qed.

(** A call resumed under a loader that differs by its selections only
    ends as the call would have ended on the loader it started on. *)
Lemma resumeCall_callOn (l lw : ZarrLoader) (c : Call) :
  layout lw = layout l -> callOn l c -> callOn l (resumeCall lw c).
Proof.
  intros Hl Hc. unfold resumeCall.
  destruct (outcome c) eqn:Eo; [exact Hc|].
  unfold callOn in *. simpl.
  destruct (issued c) as [t src keys|z src keys]; destruct Hc as [Hreq _];
    (split; [exact Hreq|]); intros r Er; injection Er as <-; f_equal.
  - unfold getTile. rewrite <- Hreq.
    destruct (Promise_all _); [|reflexivity].
    now rewrite (tileResume_layout lw l).
  - unfold getRaster. rewrite <- Hreq.
    destruct (Promise_all _); [|reflexivity].
    now rewrite (rasterResume_layout lw l).
Qed.

Lemma resumeNth_pointwise (l : ZarrLoader) (n : nat) (cs : list Call) :
  Forall2 (fun c c' => c' = c \/ c' = resumeCall l c) cs (resumeNth l n cs).
Proof.
  revert n. induction cs as [|c cs IH]; intros [|n]; simpl; constructor; auto.
  clear. induction cs; constructor; auto.
Qed.

Lemma pointwise_Forall (l : ZarrLoader) (P : Call -> Prop)
    (cs cs' : list Call) :
  (forall c, P c -> P (resumeCall l c)) ->
  Forall2 (fun c c' => c' = c \/ c' = resumeCall l c) cs cs' ->
  Forall P cs -> Forall P cs'.
Proof.
  intros HP H. induction H as [|c c' cs cs' [->| ->] _ IH];
    intros HF; inversion HF; subst; constructor; auto.
Qed.

(** A schedule without [setChannelSelections]: the loader stays, the
    calls already made stay in place, and each read call of the schedule
    adds one call on that loader. *)
Lemma run_reads (P : Call -> Prop) (w : World) (schedule : list Event) :
  noSet schedule ->
  (forall c, P c -> P (resumeCall (loader w) c)) ->
  Forall P (calls w) ->
  loader (run w schedule) = loader w /\
  exists early late,
    calls (run w schedule) = early ++ late /\
    List.length early = List.length (calls w) /\
    List.length late = List.length (filter startsRead schedule) /\
    Forall P early /\
    Forall (callOn (loader w)) late.
Proof.
  intros Hno HP HF. unfold run, noSet in *.
  induction schedule as [|e schedule IH] using rev_ind.
  - simpl. split; [reflexivity|]. exists (calls w), []. rewrite app_nil_r. auto.
  - rewrite forallb_app in Hno. apply andb_prop in Hno as [Hno He].
    simpl in He. rewrite andb_true_r in He.
    destruct (IH Hno) as (Hld & early & late & Ecalls & Hearly & Hlate & HPe & HQl).
    rewrite fold_left_app, filter_app, length_app. simpl.
    set (w' := fold_left step schedule w) in *.
    destruct e as [arg|t|z|n]; simpl in *; try discriminate.
    + split; [exact Hld|]. eexists early, (late ++ [_]).
      rewrite Ecalls, <- app_assoc, length_app. simpl.
      repeat split; auto; try lia.
      apply Forall_app. split; [exact HQl|]. constructor; [|constructor].
      unfold callOn. simpl. rewrite Hld. split; [reflexivity|discriminate].
    + split; [exact Hld|]. eexists early, (late ++ [_]).
      rewrite Ecalls, <- app_assoc, length_app. simpl.
      repeat split; auto; try lia.
      apply Forall_app. split; [exact HQl|]. constructor; [|constructor].
      unfold callOn. simpl. rewrite Hld. split; [reflexivity|discriminate].
    + split; [exact Hld|].
      pose proof (resumeNth_pointwise (loader w') n (calls w')) as Hpt.
      rewrite Ecalls in Hpt at 1.
      apply Forall2_app_inv_l in Hpt as (early' & late' & H1 & H2 & ->).
      exists early', late'. rewrite Hld in H1, H2.
      repeat split.
      * rewrite <- Hearly. symmetry. eapply Forall2_length, H1.
      * rewrite Nat.add_0_r, <- Hlate. symmetry. eapply Forall2_length, H2.
      * eapply pointwise_Forall; eauto.
      * eapply pointwise_Forall; [|exact H2|exact HQl].
        intros c. now apply resumeCall_callOn.
Qed.

(** C8: in any schedule of read calls and resumptions around one
    [setChannelSelections] call, every read call started before it issued
    the reads of the old selection set and ends with their outcome, and
    every read call started after it does so for the new set; no call
    mixes the two. *)
Theorem reads_see_one_selection_set (ld : ZarrLoader) (arg : SelectionsArg)
    (before after : list Event) :
  noSet before ->
  noSet after ->
  exists early late,
    calls (run {| loader := ld; calls := [] |}
               (before ++ CallSetChannelSelections arg :: after))
    = early ++ late /\
    List.length early = List.length (filter startsRead before) /\
    List.length late = List.length (filter startsRead after) /\
    Forall (callOn ld) early /\
    Forall (callOn (snd (setChannelSelections ld arg))) late.
Proof.
  intros Hbefore Hafter.
  destruct (run_reads (fun _ => False) {| loader := ld; calls := [] |} before
              Hbefore (fun _ H => H) (Forall_nil _))
    as (Hld & early0 & late0 & Ecalls & Hlen0 & Hlate0 & _ & Hold).
  simpl in Hld, Hlen0, Hold. destruct early0; [|discriminate]. simpl in Ecalls.
  unfold run in *. rewrite fold_left_app. simpl.
  set (w := fold_left step before {| loader := ld; calls := [] |}) in *.
  set (w' := {| loader := snd (setChannelSelections (loader w) arg);
                calls := calls w |}).
  destruct (run_reads (callOn ld) w' after Hafter)
    as (_ & early & late & E & Hlen & Hlate & Hearly & Hnew).
  - intros c. apply resumeCall_callOn. simpl. rewrite Hld.
    apply layout_setChannelSelections.
  - simpl. now rewrite Ecalls.
  - exists early, late. simpl in Hlen, Hnew. rewrite Hld in Hnew.
    unfold run in E. rewrite E, Hlen, Ecalls. auto.
Qed.

End Schedules.

Section ScheduleExamples.

#[local] Existing Instance Sample.utils.

(** A tile call before and one after three selections are set, both
    resumed afterwards: the first returns the one buffer of the initial
    selection, the second the three of the new ones. *)
Lemma reads_see_one_selection_set_witness :
  map outcome
      (calls (run {| loader := Sample.plainLoader; calls := [] |}
                  ([CallGetTile Sample.tile00]
                     ++ CallSetChannelSelections Sample.threeSelections
                     :: [CallGetTile Sample.tile00; Resume 1; Resume 0])))
  = [ Some (TileOutcome (Fulfilled [Sample.channel 0]));
      Some (TileOutcome (Fulfilled [Sample.channel 2; Sample.channel 0;
                                    Sample.channel 4])) ]
  /\ exists early late,
      calls (run {| loader := Sample.plainLoader; calls := [] |}
                 ([CallGetTile Sample.tile00]
                    ++ CallSetChannelSelections Sample.threeSelections
                    :: [CallGetTile Sample.tile00; Resume 1; Resume 0]))
      = early ++ late /\
      Forall (callOn Sample.plainLoader) early /\
      Forall (callOn Sample.threeLoader) late.
Proof.
  split; [reflexivity|].
  destruct (reads_see_one_selection_set
              Sample.plainLoader Sample.threeSelections
              [CallGetTile Sample.tile00]
              [CallGetTile Sample.tile00; Resume 1; Resume 0]
              eq_refl eq_refl)
    as (early & late & E & _ & _ & Hold & Hnew).
  exists early, late. auto.
Defined.

End ScheduleExamples.

(* ================================================================== *)
(** ** Construction: what is refused and what is built                 *)
(* ================================================================== *)

Section Construction.

Context `{U : Utils}.

(** The constructor, inverted: what it took and what it built. *)
Lemma constructor_built (data : ZarrData) (dims : option (list Dimension))
    (rgb : option bool) (sc : option Q) (tr : option (list Q))
    (ld : ZarrLoader) :
  constructor data dims rgb sc tr = Ok ld ->
  exists b,
    accepted data b /\ labelsFit dims b /\
    base ld = Some b /\
    _data ld = data /\
    dimensions ld = dims /\
    type ld = "zarr"%string /\
    isRgb ld = match rgb with
               | Some true => true
               | _ => guessRgb (shape b)
               end /\
    _xIndex ld = len (shape b) - (if isRgb ld then 2 else 1) /\
    _yIndex ld = _xIndex ld - 1 /\
    tileSize ld = get (chunks b) (_xIndex ld) /\
    numLevels ld = match data with
                   | Single _ => 1
                   | Levels l => len l
                   end /\
    _channelSelections ld = [repeat 0 (List.length (shape b))].
Proof.
  unfold constructor, accepted, labelsFit. intros H.
  destruct data as [a|l]; simpl in H.
  - destruct dims as [ds|]; simpl in H.
    + destruct (Z.eqb_spec (len ds) (len (shape a))); simpl in H; [|discriminate].
      injection H as <-. exists a. unfold base. simpl.
      repeat split; auto;
        destruct (match rgb with Some true => true | _ => guessRgb (shape a) end);
        simpl; lia.
    + injection H as <-. exists a. unfold base. simpl.
      repeat split; auto;
        destruct (match rgb with Some true => true | _ => guessRgb (shape a) end);
        simpl; lia.
  - destruct (ensureDecreasing (map shape l)) eqn:Hdec; simpl in H; [|discriminate].
    destruct (get l 0) as [b|] eqn:Hb; simpl in H; [|discriminate].
    destruct dims as [ds|]; simpl in H.
    + destruct (Z.eqb_spec (len ds) (len (shape b))); simpl in H; [|discriminate].
      injection H as <-. exists b. unfold base. simpl.
      repeat split; auto;
        destruct (match rgb with Some true => true | _ => guessRgb (shape b) end);
        simpl; lia.
    + injection H as <-. exists b. unfold base. simpl.
      repeat split; auto;
        destruct (match rgb with Some true => true | _ => guessRgb (shape b) end);
        simpl; lia.
Qed.

(** X1: a list of levels is refused with the decreasing-shape error when
    [ensureDecreasing] does not accept it, whatever the other arguments,
    and with a [TypeError] when it is accepted but empty; a loader built
    from a list of levels has an accepted, non-empty list, counts its
    levels in [numLevels] and has the first of them as its base. *)
Theorem constructor_levels (l : list ZarrArray)
    (dims : option (list Dimension)) (rgb : option bool) (sc : option Q)
    (tr : option (list Q)) :
  (ensureDecreasing (map shape l) = false ->
   constructor (Levels l) dims rgb sc tr = Err DecreasingError) /\
  (ensureDecreasing (map shape l) = true -> l = [] ->
   constructor (Levels l) dims rgb sc tr = Err TypeError) /\
  (forall ld,
      constructor (Levels l) dims rgb sc tr = Ok ld ->
      ensureDecreasing (map shape l) = true /\
      l <> [] /\
      numLevels ld = len l /\
      isPyramid ld = true /\
      base ld = get l 0).
Proof.
  split; [|split].
  - intros H. unfold constructor. now rewrite H.
  - intros H ->. unfold constructor. simpl in *. now rewrite H.
  - intros ld Hld.
    destruct (constructor_built _ _ _ _ _ _ Hld)
      as (b & [Hdec Hb] & _ & Hbase & Hdata & _ & _ & _ & _ & _ & _ & Hn & _).
    repeat split; auto.
    + intros ->. discriminate Hb.
    + unfold isPyramid. now rewrite Hdata.
    + congruence.
Qed.

(** X2: data that passes the level checks, given labels whose number is
    not the rank of the base array, is refused with the dimension-label
    error. *)
Theorem constructor_dimension_labels (data : ZarrData) (b : ZarrArray)
    (ds : list Dimension) (rgb : option bool) (sc : option Q)
    (tr : option (list Q)) :
  accepted data b ->
  len ds <> len (shape b) ->
  constructor data (Some ds) rgb sc tr = Err DimensionLabelsError.
Proof.
  intros Hacc Hlen. unfold constructor.
  destruct data as [a|l]; simpl in *.
  - subst a. destruct (Z.eqb_spec (len ds) (len (shape b))); [contradiction|].
    reflexivity.
  - destruct Hacc as [-> ->]. simpl.
    destruct (Z.eqb_spec (len ds) (len (shape b))); [contradiction|].
    reflexivity.
Qed.

(** X3: data that passes the level checks, with no labels or one label
    per axis, always builds a loader: over that base array, holding the
    data and the labels as given, [numLevels] counting the levels, the X
    axis last (last but one when interleaved), the Y axis before it, and
    the tile size read off the base chunks at the X axis. *)
Theorem constructor_succeeds (data : ZarrData) (b : ZarrArray)
    (dims : option (list Dimension)) (rgb : option bool) (sc : option Q)
    (tr : option (list Q)) :
  accepted data b ->
  labelsFit dims b ->
  exists ld,
    constructor data dims rgb sc tr = Ok ld /\
    base ld = Some b /\
    _data ld = data /\
    dimensions ld = dims /\
    numLevels ld = match data with
                   | Single _ => 1
                   | Levels l => len l
                   end /\
    _xIndex ld = len (shape b) - (if isRgb ld then 2 else 1) /\
    _yIndex ld = _xIndex ld - 1 /\
    tileSize ld = get (chunks b) (_xIndex ld).
Proof.
  intros Hacc Hfit.
  assert (H : exists ld, constructor data dims rgb sc tr = Ok ld).
  { unfold constructor, accepted, labelsFit in *.
    destruct data as [a|l]; simpl.
    - subst a. destruct dims as [ds|]; simpl; [|eauto].
      rewrite Hfit, Z.eqb_refl. simpl. eauto.
    - destruct Hacc as [-> ->]. simpl.
      destruct dims as [ds|]; simpl; [|eauto].
      rewrite Hfit, Z.eqb_refl. simpl. eauto. }
  destruct H as (ld & Hld). exists ld. split; [assumption|].
  destruct (constructor_built _ _ _ _ _ _ Hld)
    as (b' & Hacc' & _ & Hbase & Hdata & Hdims & _ & _ & Hx & Hy & Hts & Hn & _).
  assert (b' = b) as ->.
  { unfold accepted in *. destruct data as [a|l].
    - congruence.
    - destruct Hacc as [_ E], Hacc' as [_ E']. congruence. }
  repeat split; assumption.
Qed.

End Construction.

Section ConstructionExamples.

#[local] Existing Instance Sample.utils.

(** Levels of shapes [4; 4] then [8; 8] grow and are refused. *)
Lemma constructor_levels_witness :
  constructor Sample.growingLevels None None None None = Err DecreasingError.
Proof.
  apply (constructor_levels [Sample.level1; Sample.level0]).
  reflexivity.
Defined.

(** Two labels for an array of rank three. *)
Lemma constructor_dimension_labels_witness :
  constructor (Single Sample.plainArray) (Some ["y"%string; "x"%string])
              None None None
  = Err DimensionLabelsError.
Proof.
  apply (@constructor_dimension_labels
           Sample.utils (Single Sample.plainArray) Sample.plainArray
           ["y"%string; "x"%string] None None None).
  - reflexivity.
  - vm_compute. discriminate.
Defined.

(** The two-level pyramid, unlabelled. *)
Lemma constructor_succeeds_witness :
  exists ld,
    constructor (Levels [Sample.level0; Sample.level1]) None None None None
    = Ok ld /\
    base ld = Some Sample.level0 /\
    numLevels ld = 2 /\
    _xIndex ld = 1 /\ _yIndex ld = 0 /\ tileSize ld = Some 2.
Proof.
  destruct (constructor_succeeds (Levels [Sample.level0; Sample.level1])
                                 Sample.level0 None None None None)
    as (ld & Hld & Hbase & _ & _ & Hn & Hx & Hy & Hts).
  - split; reflexivity.
  - exact I.
  - exists ld. assert (E : ld = Sample.pyramidLoader).
    { assert (H : Ok ld = Ok Sample.pyramidLoader) by (rewrite <- Hld; reflexivity).
      now injection H. }
    subst ld. repeat split; reflexivity.
Defined.

End ConstructionExamples.

(* ================================================================== *)
(** ** The life of a loader                                            *)
(* ================================================================== *)

Section Lifecycle.

Context `{U : Utils}.

Lemma mapThrowing_length {A B} (f : A -> result B) (l : list A) (l' : list B) :
  mapThrowing f l = Ok l' -> List.length l' = List.length l.
Proof.
  revert l'. induction l as [|a l IH]; intros l' H; simpl in H.
  - now injection H as <-.
  - destruct (f a); simpl in H; [|discriminate].
    destruct (mapThrowing f l); simpl in H; [|discriminate].
    injection H as <-. simpl. f_equal. now apply IH.
Qed.

Lemma wrapSelections_length (arg : SelectionsArg) :
  (0 < List.length (wrapSelections arg))%nat.
Proof. destruct arg as [[|s rest]|sel]; simpl; lia. Qed.

(** The left operand of [&&] at line 166, as a boolean. *)
Lemma singleSelectionOnly_decide (ld : ZarrLoader) (b : ZarrArray) :
  base ld = Some b ->
  exists s : bool,
    (if isRgb ld then Ok true else _isUnchunkedMultiChannel ld) = Ok s /\
    (s = true <-> singleSelectionOnly ld).
Proof.
  intros Hbase. unfold singleSelectionOnly.
  destruct (packed_defined ld b Hbase) as (p & Hp).
  destruct (isRgb ld).
  - exists true. split; [reflexivity|]. split; auto.
  - exists p. split; [assumption|]. rewrite Hp. split.
    + intros ->. auto.
    + intros [H|H]; congruence.
Qed.

(** What [setChannelSelections] computes before it assigns. *)
Lemma nextChannelSelections_spec (ld : ZarrLoader) (b : ZarrArray)
    (arg : SelectionsArg) (next : list (list Z)) :
  base ld = Some b ->
  nextChannelSelections ld arg = Ok next <->
  mapThrowing (normalizeSelection ld) (wrapSelections arg) = Ok next /\
  (singleSelectionOnly ld -> len next <= 1) /\
  Forall (fits b) next.
Proof.
  intros Hbase. unfold nextChannelSelections.
  destruct (singleSelectionOnly_decide ld b Hbase) as (s & Es & Hs).
  destruct (mapThrowing (normalizeSelection ld) (wrapSelections arg))
    as [n|e]; simpl.
  - rewrite Es. simpl.
    destruct (Z.ltb_spec 1 (len n)) as [Hlen|Hlen].
    + destruct s; simpl.
      * split; [discriminate|]. intros (E & Hone & _). injection E as ->.
        assert (singleSelectionOnly ld) as Hsp by now apply Hs.
        specialize (Hone Hsp). lia.
      * destruct (validateSelections_spec ld b n Hbase)
          as [[E F]|(e & E & _ & F)]; rewrite E; simpl.
        -- split.
           ++ intros H. injection H as <-. repeat split; auto.
              intros Hsp. apply Hs in Hsp. discriminate.
           ++ intros (H & _ & _). exact H.
        -- split; [discriminate|]. intros (H & _ & F').
           injection H as ->. contradiction.
    + rewrite andb_false_r.
      destruct (validateSelections_spec ld b n Hbase)
        as [[E F]|(e & E & _ & F)]; rewrite E; simpl.
      * split.
        -- intros H. injection H as <-. repeat split; auto.
        -- intros (H & _ & _). exact H.
      * split; [discriminate|]. intros (H & _ & F').
        injection H as ->. contradiction.
  - split; [discriminate|]. intros (H & _). discriminate.
Qed.

Lemma singleSelectionOnly_assign (ld : ZarrLoader) (next : list (list Z)) :
  singleSelectionOnly (assignChannelSelections ld next) <->
  singleSelectionOnly ld.
Proof. reflexivity. Qed.

Lemma wellFormed_new (data : ZarrData) (dims : option (list Dimension))
    (rgb : option bool) (sc : option Q) (tr : option (list Q))
    (ld : ZarrLoader) :
  constructor data dims rgb sc tr = Ok ld -> exists b, wellFormed ld b.
Proof.
  intros Hnew.
  destruct (constructor_built _ _ _ _ _ _ Hnew)
    as (b & _ & Hfit & Hbase & Hdata & Hdims & Htype & _ & Hx & Hy & Hts & Hn & Hsel).
  exists b. unfold wellFormed, channelSelections. rewrite Hsel, Hdata, Hdims.
  repeat split; auto.
  - constructor; [|constructor]. split.
    + unfold len. now rewrite repeat_length.
    + intros i key E _. unfold get in E. destruct (i <? 0); [discriminate|].
      apply nth_error_In, repeat_spec in E. assumption.
  - discriminate.
  - eauto.
Qed.

Lemma wellFormed_set (ld : ZarrLoader) (b : ZarrArray) (arg : SelectionsArg) :
  wellFormed ld b -> wellFormed (snd (setChannelSelections ld arg)) b.
Proof.
  intros Hwf. unfold setChannelSelections.
  destruct (nextChannelSelections ld arg) as [next|e] eqn:E; simpl; [|exact Hwf].
  destruct Hwf as (Hbase & _ & _ & _ & Hrest).
  apply (nextChannelSelections_spec ld b arg next Hbase) in E
    as (Hnorm & Hone & Hfits).
  pose proof (mapThrowing_length _ _ _ Hnorm) as Hlen.
  pose proof (wrapSelections_length arg) as Hpos.
  unfold wellFormed, channelSelections. simpl.
  split; [exact Hbase|]. split; [exact Hfits|]. split; [|split; [|exact Hrest]].
  - intros ->. simpl in Hlen. lia.
  - intros Hsp. apply singleSelectionOnly_assign in Hsp.
    specialize (Hone Hsp). unfold len in Hone.
    destruct next as [|sel [|sel' rest]]; simpl in *; try lia. eauto.
Qed.

Lemma reachable_wellFormed (ld : ZarrLoader) :
  reachable ld -> exists b, wellFormed ld b.
Proof.
  induction 1 as [data dims rgb sc tr ld Hnew|ld arg _ (b & IH)].
  - eapply wellFormed_new, Hnew.
  - exists b. now apply wellFormed_set.
Qed.

(** X4: the layout a loader is built with stays with it: after any number
    of [setChannelSelections] calls it is still of type [zarr] over the
    same base array, with the X axis last (last but one when interleaved),
    the Y axis just before it, the tile size read off the base chunks at
    the X axis, at least one level counted by [numLevels], and one label
    per axis if it has labels. *)
Theorem reachable_layout (ld : ZarrLoader) :
  reachable ld ->
  exists b,
    base ld = Some b /\
    type ld = "zarr"%string /\
    _xIndex ld = len (shape b) - (if isRgb ld then 2 else 1) /\
    _yIndex ld = _xIndex ld - 1 /\
    tileSize ld = get (chunks b) (_xIndex ld) /\
    1 <= numLevels ld /\
    numLevels ld = match _data ld with
                   | Single _ => 1
                   | Levels l => len l
                   end /\
    labelsFit (dimensions ld) b.
Proof.
  intros (b & Hbase & _ & _ & _ & Htype & Hx & Hy & Hts & Hn & Hfit)%reachable_wellFormed.
  exists b. repeat split; auto.
  rewrite Hn. unfold base in Hbase. destruct (_data ld) as [a|l]; [lia|].
  apply get_some_range in Hbase. lia.
Qed.

(** X5: a loader always has at least one active selection, and exactly one
    when it is RGB-interleaved or packed-multichannel. *)
Theorem reachable_selection_count (ld : ZarrLoader) :
  reachable ld ->
  channelSelections ld <> [] /\
  (isRgb ld = true \/ _isUnchunkedMultiChannel ld = Ok true ->
   exists sel, channelSelections ld = [sel]).
Proof.
  intros (b & _ & _ & Hne & Hone & _)%reachable_wellFormed.
  split; assumption.
Qed.

End Lifecycle.

Section LifecycleExamples.

#[local] Existing Instance Sample.utils.

Lemma reachable_threeLoader : reachable Sample.threeLoader.
Proof.
  unfold Sample.threeLoader. apply reachable_set.
  apply (reachable_new (Single Sample.plainArray) None None None None).
  reflexivity.
Defined.

Lemma reachable_packedLoader : reachable Sample.packedLoader.
Proof.
  apply (reachable_new (Single Sample.packedArray) None None None None).
  reflexivity.
Defined.

Lemma reachable_pyramidLoader : reachable Sample.pyramidLoader.
Proof.
  apply (reachable_new (Levels [Sample.level0; Sample.level1])
                       None None None None).
  reflexivity.
Defined.

(** The loader with three selections set still has the layout it was
    built with. *)
Lemma reachable_layout_witness :
  exists b,
    base Sample.threeLoader = Some b /\
    type Sample.threeLoader = "zarr"%string /\
    _xIndex Sample.threeLoader
    = len (shape b) - (if isRgb Sample.threeLoader then 2 else 1) /\
    _yIndex Sample.threeLoader = _xIndex Sample.threeLoader - 1 /\
    tileSize Sample.threeLoader = get (chunks b) (_xIndex Sample.threeLoader) /\
    1 <= numLevels Sample.threeLoader /\
    numLevels Sample.threeLoader = match _data Sample.threeLoader with
                                   | Single _ => 1
                                   | Levels l => len l
                                   end /\
    labelsFit (dimensions Sample.threeLoader) b.
Proof. exact (reachable_layout Sample.threeLoader reachable_threeLoader). Defined.

(** The packed loader holds exactly one selection. *)
Lemma reachable_selection_count_witness :
  channelSelections Sample.packedLoader <> [] /\
  (isRgb Sample.packedLoader = true \/
   _isUnchunkedMultiChannel Sample.packedLoader = Ok true ->
   exists sel, channelSelections Sample.packedLoader = [sel]).
Proof.
  exact (reachable_selection_count Sample.packedLoader reachable_packedLoader).
Defined.

End LifecycleExamples.

(* ================================================================== *)
(** ** Replacing the selections                                        *)
(* ================================================================== *)

Section Replacing.

Context `{U : Utils}.

Lemma assign_current (ld : ZarrLoader) :
  assignChannelSelections ld (channelSelections ld) = ld.
Proof. destruct ld. reflexivity. Qed.


Lemma forallb_isNumber_named (sel : list entry) :
  Exists (fun d => exists n, d = inl n) sel -> forallb isNumber sel = false.
Proof.
  induction 1 as [d sel (n & ->)|d sel _ IH]; simpl; [reflexivity|].
  rewrite IH. apply andb_false_r.
Qed.

(** X7: on a loader without dimension labels, an argument with a named
    entry in any of its selections is refused with the named-selection
    error, before any other check, and the loader stays as it was. *)
Theorem setChannelSelections_named_without_labels (ld : ZarrLoader)
    (arg : SelectionsArg) :
  dimensions ld = None ->
  Exists (fun sel => Exists (fun d => exists n, d = inl n) sel)
         (wrapSelections arg) ->
  setChannelSelections ld arg = (Err NamedSelectionError, ld).
Proof.
  intros Hdims Hnamed.
  unfold setChannelSelections, nextChannelSelections.
  assert (E : mapThrowing (normalizeSelection ld) (wrapSelections arg)
              = Err NamedSelectionError).
  { induction Hnamed as [sel sels Hsel|sel sels _ IH]; simpl;
      unfold normalizeSelection at 1; rewrite Hdims.
    - now rewrite (forallb_isNumber_named sel Hsel).
    - destruct (forallb isNumber sel); simpl; [|reflexivity].
      now rewrite IH. }
  now rewrite E.
Qed.

(** X8: the selections cannot be emptied.  A lone selection is taken as
    the list of that one selection, and so is the empty list: on a loader
    without labels over an array of rank one or more, it is the selection
    of no entries and is refused with the shape error. *)
Theorem setChannelSelections_empty (ld : ZarrLoader) (b : ZarrArray) :
  base ld = Some b ->
  dimensions ld = None ->
  len (shape b) <> 0 ->
  setChannelSelections ld (Many []) = (Err SelectionShapeError, ld) /\
  setChannelSelections ld (One []) = (Err SelectionShapeError, ld) /\
  forall sel, setChannelSelections ld (One sel)
              = setChannelSelections ld (Many [sel]).
Proof.
  intros Hbase Hdims Hrank.
  assert (H : setChannelSelections ld (One []) = (Err SelectionShapeError, ld)).
  { unfold setChannelSelections, nextChannelSelections. simpl.
    unfold normalizeSelection. rewrite Hdims. simpl.
    destruct (singleSelectionOnly_decide ld b Hbase) as (s & -> & _). simpl.
    rewrite andb_false_r. simpl.
    unfold validateSelection. rewrite Hbase. simpl.
    destruct (len (shape b)); [contradiction|reflexivity|reflexivity]. }
  split; [exact H|]. split; [exact H|]. reflexivity.
Qed.

Lemma validateSelections_assign (ld : ZarrLoader) (s next : list (list Z)) :
  validateSelections (assignChannelSelections ld s) next
  = validateSelections ld next.
Proof.
  induction next as [|sel next IH]; simpl; [reflexivity|].
  rewrite IH. reflexivity.
Qed.

Lemma mapThrowing_ext {A B} (f g : A -> result B) (l : list A) :
  (forall a, f a = g a) -> mapThrowing f l = mapThrowing g l.
Proof.
  intros H. induction l as [|a l IH]; simpl; [reflexivity|].
  now rewrite H, IH.
Qed.

(** The outcome of a call does not depend on the selections in place. *)
Lemma nextChannelSelections_assign (ld : ZarrLoader) (s : list (list Z))
    (arg : SelectionsArg) :
  nextChannelSelections (assignChannelSelections ld s) arg
  = nextChannelSelections ld arg.
Proof.
  unfold nextChannelSelections.
  rewrite (mapThrowing_ext (normalizeSelection (assignChannelSelections ld s))
                           (normalizeSelection ld)) by reflexivity.
  destruct (mapThrowing (normalizeSelection ld) (wrapSelections arg));
    simpl; [|reflexivity].
  change (isRgb (assignChannelSelections ld s)) with (isRgb ld).
  change (_isUnchunkedMultiChannel (assignChannelSelections ld s))
    with (_isUnchunkedMultiChannel ld).
  destruct (if isRgb ld then Ok true else _isUnchunkedMultiChannel ld);
    simpl; [|reflexivity].
  now rewrite validateSelections_assign.
Qed.

Lemma assign_assign (ld : ZarrLoader) (s1 s2 : list (list Z)) :
  assignChannelSelections (assignChannelSelections ld s1) s2
  = assignChannelSelections ld s2.
Proof. reflexivity. Qed.

(** X9: whether a call is accepted does not depend on the selections in
    place, and an accepted call overwrites them whole: after any earlier
    call, an accepted call leaves the loader it would have left without
    the earlier one, a refused call leaves what the earlier one left; in
    particular a call made twice does what it does once. *)
Theorem setChannelSelections_last_wins (ld : ZarrLoader)
    (first second : SelectionsArg) :
  (fst (setChannelSelections ld second) = Ok tt ->
   setChannelSelections (snd (setChannelSelections ld first)) second
   = setChannelSelections ld second) /\
  (forall e,
      fst (setChannelSelections ld second) = Err e ->
      setChannelSelections (snd (setChannelSelections ld first)) second
      = (Err e, snd (setChannelSelections ld first))) /\
  setChannelSelections (snd (setChannelSelections ld second)) second
  = setChannelSelections ld second.
Proof.
  assert (H : forall arg s,
             setChannelSelections (assignChannelSelections ld s) arg
             = match nextChannelSelections ld arg with
               | Ok next => (Ok tt, assignChannelSelections ld next)
               | Err e => (Err e, assignChannelSelections ld s)
               end).
  { intros arg s. unfold setChannelSelections.
    rewrite nextChannelSelections_assign.
    destruct (nextChannelSelections ld arg); reflexivity. }
  assert (H' : forall arg,
             snd (setChannelSelections ld arg)
             = assignChannelSelections
                 ld (channelSelections (snd (setChannelSelections ld arg)))).
  { intros arg. unfold setChannelSelections.
    destruct (nextChannelSelections ld arg); simpl; [reflexivity|].
    symmetry. apply assign_current. }
  split; [|split].
  - intros Hok. rewrite (H' first), H. unfold setChannelSelections in *.
    destruct (nextChannelSelections ld second); [reflexivity|discriminate].
  - intros e He. rewrite (H' first) at 1. rewrite H, <- H'.
    unfold setChannelSelections in He.
    destruct (nextChannelSelections ld second); simpl in He; congruence.
  - rewrite (H' second), H, <- H'. unfold setChannelSelections.
    destruct (nextChannelSelections ld second) as [n|e] eqn:E; [reflexivity|].
    reflexivity.
Qed.

Lemma normalize_numeric (ld : ZarrLoader) (sels : list (list Z)) :
  dimensions ld = None ->
  mapThrowing (normalizeSelection ld) (map (map inr) sels) = Ok sels.
Proof.
  intros Hdims. induction sels as [|sel sels IH]; simpl; [reflexivity|].
  rewrite IH. unfold normalizeSelection. rewrite Hdims.
  assert (Hnum : forallb isNumber (map inr sel) = true /\
                 asNumbers (map inr sel) = sel).
  { clear. induction sel as [|n sel [IH1 IH2]]; simpl; [auto|].
    rewrite IH1, IH2. auto. }
  destruct Hnum as [-> ->]. reflexivity.
Qed.

(** X10: what the [channelSelections] getter returns can be handed back:
    on a loader without labels, setting the selections it reads are
    always accepted and leave the loader exactly as it is. *)
Theorem setChannelSelections_roundtrip (ld : ZarrLoader) :
  reachable ld ->
  dimensions ld = None ->
  setChannelSelections ld (numeric (channelSelections ld)) = (Ok tt, ld).
Proof.
  intros (b & Hbase & Hfits & Hne & Hone & _)%reachable_wellFormed Hdims.
  unfold setChannelSelections.
  assert (E : nextChannelSelections ld (numeric (channelSelections ld))
              = Ok (channelSelections ld)).
  { apply (nextChannelSelections_spec ld b _ _ Hbase). split; [|split].
    - unfold numeric. destruct (channelSelections ld) as [|sel sels] eqn:Es;
        [contradiction|].
      change (wrapSelections (Many (map (map inr) (sel :: sels))))
        with (map (map (@inr DimensionSelection Z)) (sel :: sels)).
      now apply normalize_numeric.
    - intros Hsp. destruct (Hone Hsp) as (sel & ->). unfold len. simpl. lia.
    - exact Hfits. }
  rewrite E. now rewrite assign_current.
Qed.

End Replacing.

Section ReplacingExamples.

#[local] Existing Instance Sample.utils.



(** A named entry on a loader without labels. *)
Lemma setChannelSelections_named_without_labels_witness :
  setChannelSelections Sample.plainLoader Sample.namedSelection
  = (Err NamedSelectionError, Sample.plainLoader).
Proof.
  apply setChannelSelections_named_without_labels; [reflexivity|].
  repeat constructor. eexists. reflexivity.
Defined.

(** The empty list on an array of rank three. *)
Lemma setChannelSelections_empty_witness :
  setChannelSelections Sample.plainLoader (Many [])
  = (Err SelectionShapeError, Sample.plainLoader).
Proof.
  apply (setChannelSelections_empty Sample.plainLoader Sample.plainArray);
    [reflexivity|reflexivity|].
  vm_compute. discriminate.
Defined.

(** Handing the three selections back. *)
Lemma setChannelSelections_roundtrip_witness :
  setChannelSelections Sample.threeLoader
                       (numeric (channelSelections Sample.threeLoader))
  = (Ok tt, Sample.threeLoader).
Proof.
  apply setChannelSelections_roundtrip; [exact reachable_threeLoader|].
  reflexivity.
Defined.

End ReplacingExamples.

(* ================================================================== *)
(** ** Reads on a loader in use                                        *)
(* ================================================================== *)

Section Reads.

Context `{U : Utils}.

Lemma relative_bounds (n r : Z) : 0 <= n -> 0 <= relative n r <= n.
Proof.
  intros Hn. unfold relative. destruct (Z.ltb_spec r 0); lia.
Qed.

Lemma subarray_inside (t : TypedArray) (b e : Q) :
  0 <= length t -> inside t (subarray t b e).
Proof.
  intros Hn. unfold inside, subarray. simpl.
  pose proof (relative_bounds (length t) (ToIntegerOrInfinity b) Hn).
  pose proof (relative_bounds (length t) (ToIntegerOrInfinity e) Hn).
  repeat split; lia.
Qed.

(** X11: whatever the length of the buffer and the chunk size, the
    splitting routine returns one view per channel, and every view is a
    window of the same buffer lying within the window it was given: it
    never reaches before or past the chunk. *)
Theorem decodeChannels_inside (C : Z) (t : TypedArray) :
  0 <= C ->
  0 <= length t ->
  len (decodeChannels C t) = C /\
  Forall (inside t) (decodeChannels C t).
Proof.
  intros HC Hn. unfold decodeChannels. split.
  - rewrite len_map. now apply len_range.
  - apply Forall_forall. intros v (i & <- & _)%in_map_iff.
    now apply subarray_inside.
Qed.

Lemma packed_chunk (ld : ZarrLoader) (b : ZarrArray) :
  base ld = Some b ->
  _isUnchunkedMultiChannel ld = Ok true ->
  exists C, get (chunks b) (_yIndex ld - 1) = Some C /\ 1 < C.
Proof.
  intros Hbase. unfold _isUnchunkedMultiChannel. rewrite Hbase. simpl.
  destruct (0 <=? _yIndex ld - 1); [|discriminate].
  destruct (get (chunks b) (_yIndex ld - 1)) as [C|]; simpl; [|discriminate].
  intros H. injection H as H. exists C. split; [reflexivity|].
  now apply Z.ltb_lt.
Qed.



Lemma rejections_In {A} (rs : list (result A)) (e : exn) :
  In e (rejections rs) <-> In (Err e) rs.
Proof.
  induction rs as [|[v|e'] rs IH]; simpl.
  - reflexivity.
  - rewrite IH. split; [auto|]. intros [H|H]; [discriminate|assumption].
  - rewrite IH. split; intros [H|H]; auto; left; congruence.
Qed.

Lemma Promise_all_rejected {A} (rs : list (result A)) (e : exn) :
  In (Err e) rs -> Promise_all rs = Rejected (rejections rs).
Proof.
  intros H%rejections_In. unfold Promise_all.
  destruct (rejections rs); [contradiction|reflexivity].
Qed.

(** X13: a tile request one of whose chunk reads the store refuses is
    rejected, whether the loader is packed or not; the reasons of the
    rejection hold the store's error as it was raised, and hold nothing
    but errors the store raised for reads of this request. *)
Theorem getTile_rejects (ld : ZarrLoader) (t : TileIndex) (a : ZarrArray)
    (sel : list Z) (e : exn) :
  _getSource ld (z t) = SrcArray a ->
  In sel (channelSelections ld) ->
  getRawChunk a (tileKey ld (x t) (y t) sel) = Err e ->
  exists es,
    getTile ld t = Rejected es /\
    In e es /\
    forall e',
      In e' es ->
      exists sel', In sel' (channelSelections ld) /\
                   getRawChunk a (tileKey ld (x t) (y t) sel') = Err e'.
Proof.
  intros Hsource Hin Hread.
  unfold getTile, tileRequests, channelSelections in *. rewrite Hsource.
  rewrite map_map.
  set (rs := map (fun s => readChunk (SrcArray a) (tileKey ld (x t) (y t) s))
                 (_channelSelections ld)).
  assert (Hrs : In (Err e) rs).
  { apply in_map_iff. exists sel. split; [|assumption].
    simpl. now rewrite Hread. }
  rewrite (Promise_all_rejected rs e Hrs).
  exists (rejections rs). split; [reflexivity|]. split.
  - now apply rejections_In.
  - intros e' (sel' & E & Hin')%rejections_In%in_map_iff.
    exists sel'. split; [assumption|]. simpl in E.
    destruct (getRawChunk a (tileKey ld (x t) (y t) sel')); simpl in E;
      [discriminate|congruence].
Qed.

(** X14: on a pyramid the levels a read can name are [0] to
    [numLevels - 1]: each of them resolves to the array at that place in
    the list, and any other level resolves to nothing, so that a tile
    request for it is rejected with a [TypeError] for each selection,
    without a read reaching the store. *)
Theorem reachable_levels (ld : ZarrLoader) (l : list ZarrArray) (x y n : Z) :
  reachable ld ->
  _data ld = Levels l ->
  (0 <= n < numLevels ld ->
   exists a, get l n = Some a /\ _getSource ld (Some n) = SrcArray a) /\
  (n < 0 \/ numLevels ld <= n ->
   _getSource ld (Some n) = SrcUndefined /\
   getTile ld {| x := x; y := y; z := Some n |}
   = Rejected (map (fun _ => TypeError) (channelSelections ld))).
Proof.
  intros (b & _ & _ & Hne & _ & _ & _ & _ & _ & Hn & _)%reachable_wellFormed Hdata.
  rewrite Hdata in Hn. split.
  - intros Hrange. destruct (get_in_range l n) as (a & Ha); [lia|].
    exists a. split; [assumption|]. unfold _getSource. now rewrite Hdata, Ha.
  - intros Hout.
    assert (Hnone : get l n = None).
    { destruct (get l n) eqn:E; [|reflexivity].
      apply get_some_range in E. lia. }
    assert (Hsrc : _getSource ld (Some n) = SrcUndefined).
    { unfold _getSource. now rewrite Hdata, Hnone. }
    split; [assumption|].
    unfold getTile, tileRequests, channelSelections in *.
    change (z {| x := x; y := y; z := Some n |}) with (Some n).
    rewrite Hsrc, map_map. simpl.
    destruct (_channelSelections ld) as [|sel sels]; [contradiction|].
    unfold Promise_all. simpl. f_equal. f_equal.
    clear. induction sels; simpl; congruence.
Qed.

(** X15: level [0] is the base array, and a loader over a lone array
    reads that array whatever level is asked for. *)
Theorem level0_is_base (ld : ZarrLoader) :
  reachable ld ->
  exists b,
    base ld = Some b /\
    _getSource ld (Some 0) = SrcArray b /\
    (isPyramid ld = false -> forall z, _getSource ld z = SrcArray b).
Proof.
  intros (b & Hbase & _)%reachable_wellFormed. exists b.
  split; [assumption|]. unfold base, _getSource, isPyramid in *.
  destruct (_data ld) as [a|l].
  - injection Hbase as ->. split; [reflexivity|].
    intros _ [z|]; reflexivity.
  - rewrite Hbase. split; [reflexivity|discriminate].
Qed.


End Reads.

Section ReadExamples.

#[local] Existing Instance Sample.utils.

(** Ten elements over four channels: four views, each within the ten. *)
Lemma decodeChannels_inside_witness :
  len (decodeChannels 4 (Sample.whole 10)) = 4 /\
  Forall (inside (Sample.whole 10)) (decodeChannels 4 (Sample.whole 10)).
Proof.
  apply decodeChannels_inside; vm_compute; discriminate.
Defined.


(** A store that refuses the read as out of bounds: the request is
    rejected with that very error, which the read-failure hook lets
    pass. *)
Lemma getTile_rejects_witness :
  getTile Sample.refusingLoader Sample.tile00
  = Rejected [Thrown Sample.outOfBounds] /\
  onTileError Sample.outOfBounds = Ok tt /\
  exists es,
    getTile Sample.refusingLoader Sample.tile00 = Rejected es /\
    In (Thrown Sample.outOfBounds) es.
Proof.
  split; [reflexivity|]. split; [reflexivity|].
  destruct (getTile_rejects Sample.refusingLoader Sample.tile00
                            Sample.refusingArray [0; 0; 0]
                            (Thrown Sample.outOfBounds) eq_refl)
    as (es & E & Hin & _).
  - left. reflexivity.
  - reflexivity.
  - exists es. auto.
Defined.

(** Two levels: level 1 is there, level 2 is not. *)
Lemma reachable_levels_witness :
  _getSource Sample.pyramidLoader (Some 1) = SrcArray Sample.level1 /\
  getTile Sample.pyramidLoader {| x := 0; y := 0; z := Some 2 |}
  = Rejected [TypeError].
Proof.
  split.
  - destruct (reachable_levels Sample.pyramidLoader
                               [Sample.level0; Sample.level1] 0 0 1
                               reachable_pyramidLoader eq_refl)
      as [Hin _].
    destruct Hin as (a & Ha & Hsrc); [vm_compute; split; congruence|].
    injection Ha as <-. exact Hsrc.
  - destruct (reachable_levels Sample.pyramidLoader
                               [Sample.level0; Sample.level1] 0 0 2
                               reachable_pyramidLoader eq_refl)
      as [_ Hout].
    destruct Hout as [_ Hrej]; [right; vm_compute; discriminate|].
    exact Hrej.
Defined.

(** Level 0 of the pyramid is its base. *)
Lemma level0_is_base_witness :
  exists b,
    base Sample.pyramidLoader = Some b /\
    _getSource Sample.pyramidLoader (Some 0) = SrcArray b /\
    (isPyramid Sample.pyramidLoader = false ->
     forall z, _getSource Sample.pyramidLoader z = SrcArray b).
Proof. exact (level0_is_base Sample.pyramidLoader reachable_pyramidLoader). Defined.


End ReadExamples.

(* ================================================================== *)
(** ** Requests fail only where the store does                         *)
(* ================================================================== *)

Section Answered.

Context `{U : Utils}.

Lemma Promise_all_answered {A} (rs : list (result A)) :
  Forall (fun r => exists v, r = Ok v) rs ->
  exists vs, Promise_all rs = Fulfilled vs /\
             List.length vs = List.length rs.
Proof.
  intros H. unfold Promise_all.
  assert (E : rejections rs = [] /\
              List.length (fulfilled rs) = List.length rs).
  { induction H as [|r rs (v & ->) _ [IH1 IH2]]; simpl; auto. }
  destruct E as [-> E]. eauto.
Qed.

Lemma Promise_all_members {A} (rs : list (result A)) (vs : list A) :
  Promise_all rs = Fulfilled vs -> Forall (fun r => exists v, r = Ok v) rs.
Proof.
  intros H%Promise_all_fulfilled.
  induction H; constructor; eauto.
Qed.

Lemma get_first {A} (l : list A) :
  (0 < List.length l)%nat -> exists a, get l 0 = Some a.
Proof. destruct l; simpl; [lia|]. intros _. unfold get. simpl. eauto. Qed.

Lemma _decodeChannels_packed (ld : ZarrLoader) (b : ZarrArray)
    (d : TypedArray) :
  base ld = Some b ->
  _isUnchunkedMultiChannel ld = Ok true ->
  exists views, _decodeChannels ld (Some d) = Ok views.
Proof.
  intros Hbase Hpacked.
  destruct (packed_chunk ld b Hbase Hpacked) as (C & HC & _).
  unfold _decodeChannels. rewrite Hbase. simpl. rewrite HC. simpl. eauto.
Qed.

(** X17: a tile request whose level resolves to an array is fulfilled
    exactly when the store answers the chunk read of every active
    selection: the loader adds no failure of its own, packed or not. *)
Theorem getTile_fulfilled_iff (ld : ZarrLoader) (t : TileIndex)
    (a : ZarrArray) :
  reachable ld ->
  _getSource ld (z t) = SrcArray a ->
  (exists bufs, getTile ld t = Fulfilled bufs) <->
  Forall (fun sel =>
            exists r, getRawChunk a (tileKey ld (x t) (y t) sel) = Ok r)
         (channelSelections ld).
Proof.
  intros (b & Hbase & _ & Hne & _)%reachable_wellFormed Hsource.
  unfold getTile, tileRequests, channelSelections in *.
  rewrite Hsource, map_map.
  set (rs := map (fun s => readChunk (SrcArray a) (tileKey ld (x t) (y t) s))
                 (_channelSelections ld)).
  assert (Hrs : Forall (fun r => exists v, r = Ok v) rs <->
                Forall (fun sel =>
                          exists r, getRawChunk a (tileKey ld (x t) (y t) sel)
                                    = Ok r)
                       (_channelSelections ld)).
  { unfold rs. rewrite Forall_map. split; apply Forall_impl; intros sel.
    - intros (v & E). simpl in E.
      destruct (getRawChunk a (tileKey ld (x t) (y t) sel)); [eauto|discriminate].
    - intros (r & E). simpl. rewrite E. simpl. eauto. }
  rewrite <- Hrs. split.
  - intros (bufs & E).
    destruct (Promise_all rs) as [d|es] eqn:Ep; [|discriminate].
    eapply Promise_all_members, Ep.
  - intros Hall. destruct (Promise_all_answered rs Hall) as (vs & -> & Hlen).
    unfold tileResume.
    destruct (packed_defined ld b Hbase) as ([|] & Hp); rewrite Hp; simpl.
    + destruct (get_first vs) as (d & ->).
      { rewrite Hlen. unfold rs. rewrite length_map.
        destruct (_channelSelections ld); [contradiction|simpl; lia]. }
      destruct (_decodeChannels_packed ld b d Hbase Hp) as (views & ->).
      simpl. eauto.
    + eauto.
Qed.

(** X18: a raster request whose level resolves to an array is fulfilled
    exactly when the store answers the plane read of every active
    selection; building the coordinate vectors and splitting a packed
    plane never fail. *)
Theorem getRaster_fulfilled_iff (ld : ZarrLoader) (z : option Z)
    (a : ZarrArray) :
  reachable ld ->
  _getSource ld z = SrcArray a ->
  (forall sel, exists key, rasterKey ld sel = Ok key) /\
  ((exists r, getRaster ld z = Fulfilled r) <->
   Forall (fun sel =>
             exists key r, rasterKey ld sel = Ok key /\ getRaw a key = Ok r)
          (channelSelections ld)).
Proof.
  intros (b & Hbase & _ & Hne & _)%reachable_wellFormed Hsource.
  split.
  { intros sel. unfold rasterKey. destruct (isRgb ld); [eauto|].
    destruct (packed_defined ld b Hbase) as ([|] & ->); simpl; eauto. }
  unfold getRaster, rasterRequests, channelSelections in *.
  rewrite Hsource, map_map.
  set (rs := map (fun s => k <- rasterKey ld s ;; readPlane (SrcArray a) k)
                 (_channelSelections ld)).
  assert (Hrs : Forall (fun r => exists v, r = Ok v) rs <->
                Forall (fun sel =>
                          exists key r, rasterKey ld sel = Ok key /\
                                        getRaw a key = Ok r)
                       (_channelSelections ld)).
  { unfold rs. rewrite Forall_map. split; apply Forall_impl; intros sel.
    - intros (v & E). destruct (rasterKey ld sel) as [key|]; simpl in E;
        [|discriminate].
      destruct (getRaw a key) eqn:Er; [eauto|discriminate].
    - intros (key & r & -> & E). simpl. rewrite E. simpl. eauto. }
  rewrite <- Hrs. split.
  - intros (r & E).
    destruct (Promise_all rs) as [d|es] eqn:Ep; [|discriminate].
    eapply Promise_all_members, Ep.
  - intros Hall. destruct (Promise_all_answered rs Hall) as (vs & -> & Hlen).
    unfold rasterResume. simpl.
    destruct (packed_defined ld b Hbase) as ([|] & Hp); rewrite Hp; simpl.
    + destruct (get_first vs) as (d & ->).
      { rewrite Hlen. unfold rs. rewrite length_map.
        destruct (_channelSelections ld); [contradiction|simpl; lia]. }
      destruct (_decodeChannels_packed ld b d Hbase Hp) as (views & ->).
      simpl. eauto.
    + eauto.
Qed.


End Answered.

Section AnsweredExamples.

#[local] Existing Instance Sample.utils.

(** The store of [plainArray] answers the three reads. *)
Lemma getTile_fulfilled_iff_witness :
  exists bufs, getTile Sample.threeLoader Sample.tile00 = Fulfilled bufs.
Proof.
  apply (getTile_fulfilled_iff Sample.threeLoader Sample.tile00
                               Sample.plainArray reachable_threeLoader eq_refl).
  repeat constructor; eexists; reflexivity.
Defined.

(** The store of [packedArray] answers the one plane read. *)
Lemma getRaster_fulfilled_iff_witness :
  exists r, getRaster Sample.packedLoader None = Fulfilled r.
Proof.
  apply (getRaster_fulfilled_iff Sample.packedLoader None
                                 Sample.packedArray reachable_packedLoader
                                 eq_refl).
  repeat constructor. do 2 eexists. split; reflexivity.
Defined.


End AnsweredExamples.

(* ================================================================== *)
(** ** Rasters of a loader in use                                      *)
(* ================================================================== *)

Section Rasters.

Context `{U : Utils}.

(** X21: a raster is only ever returned for a level that resolves to an
    array, and its [width] and [height] are that array's shape at the X
    and Y axes, whatever buffers the store answered with. *)
Theorem getRaster_width_height (ld : ZarrLoader) (z : option Z)
    (r : RasterData) :
  getRaster ld z = Fulfilled r ->
  exists a,
    _getSource ld z = SrcArray a /\
    width r = get (shape a) (_xIndex ld) /\
    height r = get (shape a) (_yIndex ld).
Proof.
  intros E. unfold getRaster, rasterRequests in E.
  destruct (Promise_all _) as [d|es] in E; [|discriminate].
  apply settle_fulfilled in E. unfold rasterResume in E.
  destruct (_getSource ld z) as [a| |]; simpl in E; try discriminate.
  exists a. split; [reflexivity|].
  destruct (_isUnchunkedMultiChannel ld) as [[|]|e]; simpl in E;
    try discriminate.
  - destruct (_decodeChannels ld (get d 0)); simpl in E; [|discriminate].
    injection E as <-. split; reflexivity.
  - injection E as <-. split; reflexivity.
Qed.


End Rasters.

Section RasterShapeExamples.

#[local] Existing Instance Sample.utils.

(** The store of [plainArray] answers a plane read with four elements;
    the raster is 8 by 8 all the same. *)
Lemma getRaster_width_height_witness :
  getRaster Sample.plainLoader None =
  Fulfilled {| rasterData := [Sample.whole 4];
               width := Some 8; height := Some 8 |} /\
  exists a,
    _getSource Sample.plainLoader None = SrcArray a /\
    Some 8 = get (shape a) (_xIndex Sample.plainLoader) /\
    Some 8 = get (shape a) (_yIndex Sample.plainLoader).
Proof.
  split; [reflexivity|].
  exact (getRaster_width_height
           Sample.plainLoader None
           {| rasterData := [Sample.whole 4];
              width := Some 8; height := Some 8 |} eq_refl).
Defined.


End RasterShapeExamples.
